(** * BaseError: a shallow embedding of packages/js-errors

    The class under study is [BaseError] of packages/js-errors, in the
    revision that has [fromCatch] and the documented [toString]: its
    constructor, [toString], [toJSON] and the static [fromCatch].  The
    methods are embedded as functions over an explicit JavaScript heap, in
    the order in which the source evaluates its sub-expressions.

    Modelled fragment of the language.
    - Values: [undefined], [null], booleans, the numbers that are safe
      integers, strings (code units below 256), symbols, bigints and
      references to heap objects.
    - Objects: a prototype link, an array flag with its [length], and data
      properties keyed by string or symbol, each with its [enumerable]
      attribute, kept in creation order.
    - JSON.stringify calls the method [toJSON] of the class on the objects
      that find it, as the language does; the depth to which it may nest
      is the engine's, a parameter of [fromCatch].
    - Not modelled: accessor properties, proxies, callable values, hence
      a [toJSON] or [toString] written by the caller.  The conversion of an
      object to a string, which runs the object's own [toString], is a
      parameter of the development ([ObjectToString]).
    - The arrays that [Object.entries], [Array.from] and [map] build and
      drop within a call are lists of the model, not objects of the heap:
      nothing keeps a reference to them. *)

From Stdlib Require Import ZArith NArith String Ascii List DecimalString.
From stdpp Require Import base list strings option numbers sorting.

Local Open Scope string_scope.
Local Open Scope list_scope.
Local Open Scope stdpp_scope.

(** ** Values and the heap *)

Abbreviation loc := nat.

(** The numbers of the model are the safe integers, [-(2^53 - 1)] to
    [2^53 - 1]: each is a number of the language, and Number::toString
    prints it in decimal, without exponent. *)
Definition safe (n : Z) : bool :=
  ((- 9007199254740991 <=? n) && (n <=? 9007199254740991))%Z.

Definition safe_integer : Type := { n : Z | Is_true (safe n) }.

#[global] Instance safe_integer_eq_dec : EqDecision safe_integer.
Proof.
  intros [x Hx] [y Hy]. destruct (decide (x = y)) as [->|Hne].
  - left. f_equal. apply proof_irrel.
  - right. intros [=]. done.
Defined.

Inductive value :=
  | VUndefined
  | VNull
  | VBoolean (b : bool)
  | VNum (n : safe_integer)
  | VString (s : string)
  | VSymbol (id : nat)
  | VBigInt (n : Z)
  | VObject (l : loc).

(** The number written [z], a literal of the safe range. *)
Abbreviation VNumber z := (VNum (exist _ z%Z I)).

Inductive key :=
  | KString (s : string)
  | KSymbol (id : nat).

#[global] Instance value_eq_dec : EqDecision value.
Proof. solve_decision. Defined.

#[global] Instance key_eq_dec : EqDecision key.
Proof. solve_decision. Defined.

(** A data property: its value and its [enumerable] attribute. *)
Record property := Property { p_value : value; p_enumerable : bool }.

Inductive object_kind :=
  | OrdinaryKind
  | ArrayKind (len : N).

Record object := Object {
  o_proto : option loc;
  o_kind : object_kind;
  o_props : list (key * property)   (* creation (insertion) order *)
}.

Abbreviation heap := (list object).

Definition empty_object : object := Object None OrdinaryKind [].

(** Reading a location; a location outside the heap reads as an object
    without properties (no such reference exists in a running program). *)
Definition obj_at (h : heap) (l : loc) : object := default empty_object (h !! l).

(** ** Outcomes of an evaluation *)

Inductive type_error :=
  | InOperandNotObject      (* right-hand side of [in] is not an object *)
  | CircularStructure       (* JSON.stringify met the object it is serializing *)
  | BigIntNotSerializable   (* JSON.stringify met a bigint *)
  | SymbolToString          (* a symbol was converted to a string *)
  | NullishToObject.        (* undefined or null where an object is required *)

Inductive exn :=
  | TypeError (why : type_error)
  | RangeError                         (* the engine's: the call stack is full *)
  | Thrown (v : value).                (* thrown by code of the host/caller *)

Inductive result (A : Type) :=
  | Ok (a : A)
  | Throw (e : exn)
  | OutOfFuel.
Arguments Ok {A} a.
Arguments Throw {A} e.
Arguments OutOfFuel {A}.

#[global] Instance result_ret : MRet result := λ A a, Ok a.
#[global] Instance result_bind : MBind result := λ A B f r,
  match r with
  | Ok a => f a
  | Throw e => Throw e
  | OutOfFuel => OutOfFuel
  end.

Definition is_throw {A} (r : result A) : bool :=
  match r with Throw _ => true | _ => false end.

(** Computations that allocate: the heap is threaded through, and is kept
    when the computation throws. *)
Definition M (A : Type) : Type := heap → result A * heap.

Definition ret {A} (a : A) : M A := λ h, (Ok a, h).

Definition bind {A B} (m : M A) (k : A → M B) : M B := λ h,
  match m h with
  | (Ok a, h') => k a h'
  | (Throw e, h') => (Throw e, h')
  | (OutOfFuel, h') => (OutOfFuel, h')
  end.

(** A computation that only reads the heap. *)
Definition read {A} (f : heap → result A) : M A := λ h, (f h, h).

(** Allocation of a new object, at the first free location. *)
Definition alloc (o : object) : M loc := λ h, (Ok (length h), h ++ [o]).

Notation "'let!' x ':=' m 'in' k" := (bind m (λ x, k))
  (at level 10, x name, m at level 100, k at level 200, only parsing).

(** ** Numbers and strings *)

(** Number::toString on a safe integer: its decimal digits. *)
Definition Number_toString (n : safe_integer) : string :=
  NilZero.string_of_int (Z.to_int (`n)).

(** BigInt::toString: the decimal digits, whatever the size. *)
Definition BigInt_toString (n : Z) : string :=
  NilZero.string_of_int (Z.to_int n).

(** The property key of array index [i]. *)
Definition index_key (i : N) : string :=
  NilZero.string_of_uint (N.to_uint i).

(** A string key is an array index when it is the canonical decimal form of
    an integer below 2^32 - 1. *)
Definition array_index (s : string) : option N :=
  match NilZero.uint_of_string s with
  | Some d =>
      let n := N.of_uint d in
      if (String.eqb (index_key n) s && (n <? 4294967295)%N)%bool
      then Some n else None
  | None => None
  end.

Definition hex_digit (n : N) : ascii :=
  ascii_of_N (if (n <? 10)%N then 48 + n else 87 + n).

Definition dquote : string := String "034"%char EmptyString.
Definition backslash : string := String "092"%char EmptyString.

(** QuoteJSONString, one code unit at a time. *)
Definition quote_char (c : ascii) : string :=
  let n := N_of_ascii c in
  if (n =? 34)%N then backslash +:+ dquote
  else if (n =? 92)%N then backslash +:+ backslash
  else if (n =? 8)%N then backslash +:+ "b"
  else if (n =? 9)%N then backslash +:+ "t"
  else if (n =? 10)%N then backslash +:+ "n"
  else if (n =? 12)%N then backslash +:+ "f"
  else if (n =? 13)%N then backslash +:+ "r"
  else if (n <? 32)%N
       then backslash +:+ "u00" +:+
            String (hex_digit (n / 16)) (String (hex_digit (n mod 16)) EmptyString)
  else String c EmptyString.

Fixpoint quote_chars (s : string) : string :=
  match s with
  | EmptyString => EmptyString
  | String c s' => quote_char c +:+ quote_chars s'
  end.

Definition QuoteJSONString (s : string) : string :=
  dquote +:+ quote_chars s +:+ dquote.

(** Array.prototype.join on an array of strings. *)
Definition join (sep : string) (xs : list string) : string :=
  String.concat sep xs.

(** [haystack.includes(needle)] *)
Fixpoint includes (needle haystack : string) : bool :=
  String.prefix needle haystack ||
  match haystack with
  | EmptyString => false
  | String _ rest => includes needle rest
  end.

(** ** Properties of objects *)

Fixpoint assoc (k : key) (ps : list (key * property)) : option property :=
  match ps with
  | [] => None
  | (k', p) :: ps' => if decide (k' = k) then Some p else assoc k ps'
  end.

(** The [length] of an array, at most 2^32 - 1, is a safe integer. *)
Definition array_length (len : N) : value :=
  match decide (Is_true (safe (Z.of_N len))) with
  | left Hsafe => VNum (exist _ (Z.of_N len) Hsafe)
  | right _ => VUndefined
  end.

(** [[GetOwnProperty]]: an array has its [length] as an own property that is
    not enumerable. *)
Definition GetOwnProperty (o : object) (k : key) : option property :=
  match o_kind o with
  | ArrayKind len =>
      if decide (k = KString "length")
      then Some (Property (array_length len) false)
      else assoc k (o_props o)
  | OrdinaryKind => assoc k (o_props o)
  end.

(** [[Get]] and [[HasProperty]] walk the prototype chain.  The chain of a
    running program is finite and does not repeat an object, so the size of
    the heap bounds the walk. *)
Fixpoint Get_fuel (fuel : nat) (h : heap) (l : loc) (k : key) : value :=
  match fuel with
  | 0 => VUndefined
  | S fuel' =>
      let o := obj_at h l in
      match GetOwnProperty o k with
      | Some p => p_value p
      | None =>
          match o_proto o with
          | Some l' => Get_fuel fuel' h l' k
          | None => VUndefined
          end
      end
  end.

Definition Get (h : heap) (l : loc) (k : key) : value :=
  Get_fuel (length h) h l k.

Fixpoint HasProperty_fuel (fuel : nat) (h : heap) (l : loc) (k : key) : bool :=
  match fuel with
  | 0 => false
  | S fuel' =>
      let o := obj_at h l in
      match GetOwnProperty o k with
      | Some _ => true
      | None =>
          match o_proto o with
          | Some l' => HasProperty_fuel fuel' h l' k
          | None => false
          end
      end
  end.

Definition HasProperty (h : heap) (l : loc) (k : key) : bool :=
  HasProperty_fuel (length h) h l k.

(** The member access [v.name] on an object [v].  The source reads the
    members of [this], an error, and of [error] once [in] has accepted it,
    an object (wrappers of primitives are not modelled). *)
Definition GetV (h : heap) (v : value) (name : string) : value :=
  match v with
  | VObject l => Get h l (KString name)
  | _ => VUndefined
  end.

(** OrdinaryHasInstance: is [target] on the prototype chain of [l]? *)
Fixpoint InPrototypeChain_fuel (fuel : nat) (h : heap) (target l : loc) : bool :=
  match fuel with
  | 0 => false
  | S fuel' =>
      match o_proto (obj_at h l) with
      | None => false
      | Some p =>
          if decide (p = target) then true
          else InPrototypeChain_fuel fuel' h target p
      end
  end.

(** ** Own property keys, in the order of [[OwnPropertyKeys]] *)

Definition string_keys (ps : list (key * property)) : list string :=
  omap (λ kp, match fst kp with KString s => Some s | KSymbol _ => None end) ps.

Definition symbol_keys (ps : list (key * property)) : list nat :=
  omap (λ kp, match fst kp with KSymbol n => Some n | KString _ => None end) ps.

Fixpoint insert_by_index (x : N * string) (xs : list (N * string)) : list (N * string) :=
  match xs with
  | [] => [x]
  | y :: ys => if (fst x <=? fst y)%N then x :: y :: ys else y :: insert_by_index x ys
  end.

Definition sort_by_index (xs : list (N * string)) : list (N * string) :=
  foldr insert_by_index [] xs.

Definition is_index (s : string) : bool := bool_decide (is_Some (array_index s)).

(** Array indices in ascending order first, then the other string keys in
    creation order (for an array, [length] was created with the array). *)
Definition OwnStringKeys (o : object) : list string :=
  let ks := string_keys (o_props o) in
  (sort_by_index (omap (λ s, (λ n, (n, s)) <$> array_index s) ks)).*2
  ++ match o_kind o with ArrayKind _ => ["length"] | OrdinaryKind => [] end
  ++ filter (λ s, is_index s = false) ks.

(** String keys, then symbol keys in creation order. *)
Definition OwnPropertyKeys (o : object) : list key :=
  (KString <$> OwnStringKeys o) ++ (KSymbol <$> symbol_keys (o_props o)).

(** The value of an own property that is enumerable.  Every property is a
    data property, so [[Get]] on an own key is its value. *)
Definition enumerable_value (o : object) (q : key) : option value :=
  match GetOwnProperty o q with
  | Some p => if p_enumerable p then Some (p_value p) else None
  | None => None
  end.

(** The own enumerable properties among [ks], each with its value. *)
Definition enumerable_own {K} (inj : K → key) (o : object) (ks : list K)
  : list (K * value) :=
  omap (λ k, pair k <$> enumerable_value o (inj k)) ks.

(** EnumerableOwnProperties(O, key+value): string keys only. *)
Definition EnumerableOwnProperties (o : object) : list (string * value) :=
  enumerable_own KString o (OwnStringKeys o).

(** The characters of a string as the own properties of its wrapper. *)
Fixpoint string_entries (i : N) (s : string) : list (string * value) :=
  match s with
  | EmptyString => []
  | String c s' => (index_key i, VString (String c EmptyString)) :: string_entries (N.succ i) s'
  end.

(** ** Built-in operations used by the class *)

(** [name in v]: a TypeError unless [v] is an object. *)
Definition In_operator (h : heap) (name : string) (v : value) : result bool :=
  match v with
  | VObject l => Ok (HasProperty h l (KString name))
  | _ => Throw (TypeError InOperandNotObject)
  end.

(** [Object.entries(v)]: ToObject, then EnumerableOwnProperties.  The
    array of pairs it returns is a list of the model. *)
Definition Object_entries (h : heap) (v : value) : result (list (string * value)) :=
  match v with
  | VUndefined | VNull => Throw (TypeError NullishToObject)
  | VString s => Ok (string_entries 0 s)
  | VObject l => Ok (EnumerableOwnProperties (obj_at h l))
  | _ => Ok []
  end.

(** [Array.from(xs)] on an array: a copy with the same elements, in the
    model the same list. *)
Definition Array_from {A} (xs : list A) : list A := xs.

(** CreateDataProperty on an object under construction: an existing key
    keeps its position, a new key is added last. *)
Fixpoint define (k : key) (v : value) (ps : list (key * property))
  : list (key * property) :=
  match ps with
  | [] => [(k, Property v true)]
  | (k', p) :: ps' =>
      if decide (k' = k) then (k, Property v true) :: ps'
      else (k', p) :: define k v ps'
  end.

Definition define_all (kvs : list (key * value)) (ps : list (key * property))
  : list (key * property) :=
  foldl (λ acc kv, define (fst kv) (snd kv) acc) ps kvs.

(** CopyDataProperties, the source of a spread [...v]: the own enumerable
    properties of [v], string keys then symbol keys; nothing for undefined,
    null and the primitives without indexed characters. *)
Definition CopyDataProperties (h : heap) (v : value) : list (key * value) :=
  match v with
  | VObject l =>
      let o := obj_at h l in
      enumerable_own id o (OwnPropertyKeys o)
  | VString s => prod_map KString id <$> string_entries 0 s
  | _ => []
  end.

(** [a ?? b] *)
Definition nullish (a b : value) : value :=
  match a with
  | VUndefined | VNull => b
  | _ => a
  end.

(** The prototype objects of the realm: fixed locations of the heap. *)
Definition Object_prototype : loc := 0.
Definition Error_prototype : loc := 1.
Definition BaseError_prototype : loc := 2.
Definition Array_prototype : loc := 3.

(** The data properties of the prototypes at start-up (their methods are
    not data of the model). *)
Definition initial_heap : heap :=
  [ Object None OrdinaryKind [];
    Object (Some Object_prototype) OrdinaryKind
      [ (KString "name", Property (VString "Error") false);
        (KString "message", Property (VString "") false) ];
    Object (Some Error_prototype) OrdinaryKind [];
    Object (Some Object_prototype) (ArrayKind 0) [] ].

(** [v instanceof BaseError] *)
Definition instanceof_BaseError (h : heap) (v : value) : bool :=
  match v with
  | VObject l => InPrototypeChain_fuel (length h) h BaseError_prototype l
  | _ => false
  end.

(** ** JSON.stringify *)

(** The indices [0 .. len-1] of an array-like. *)
Definition indices (len : N) : list N := N.of_nat <$> seq 0 (N.to_nat len).

(** The values SerializeJSONObject / SerializeJSONArray read from [l], each
    with the key a member is printed under (none for an array element).
    Nothing is written during a serialization, so that the values are those
    the object holds when it is entered. *)
Definition JSON_children (h : heap) (l : loc) : list (option string * value) :=
  let o := obj_at h l in
  match o_kind o with
  | ArrayKind len => (λ i, (None, Get h l (KString (index_key i)))) <$> indices len
  | OrdinaryKind => prod_map Some id <$> EnumerableOwnProperties o
  end.

(** Is [l.toJSON] callable?  No value of the model is callable; the one
    method named [toJSON] is that of the class, which is found on
    [BaseError.prototype] unless a data property of that name comes first
    on the prototype chain. *)
Fixpoint toJSON_method_fuel (fuel : nat) (h : heap) (l : loc) : bool :=
  match fuel with
  | 0 => false
  | S fuel' =>
      match h !! l with
      | None => false
      | Some o =>
          match GetOwnProperty o (KString "toJSON") with
          | Some _ => false
          | None =>
              if decide (l = BaseError_prototype) then true
              else
                match o_proto o with
                | Some p => toJSON_method_fuel fuel' h p
                | None => false
                end
          end
      end
  end.

Definition toJSON_method (h : heap) (l : loc) : bool :=
  toJSON_method_fuel (length h) h l.

(** Running [f] on the elements of [xs], in order; the first exception
    ends the run. *)
Fixpoint for_each {A B} (f : A → M B) (xs : list A) : M (list B) :=
  match xs with
  | [] => ret []
  | x :: xs' => let! y := f x in let! ys := for_each f xs' in ret (y :: ys)
  end.

(** What SerializeJSONProperty makes of a value that is not an object. *)
Definition SerializeJSONPrimitive (v : value) : result (option string) :=
  match v with
  | VNull => Ok (Some "null")
  | VBoolean true => Ok (Some "true")
  | VBoolean false => Ok (Some "false")
  | VString s => Ok (Some (QuoteJSONString s))
  | VNum n => Ok (Some (Number_toString n))
  | VBigInt _ => Throw (TypeError BigIntNotSerializable)
  | VUndefined | VSymbol _ | VObject _ => Ok None
  end.

Section Serialization.

(** The method [toJSON] of the class ([BaseError.toJSON] below). *)
Variable toJSON : value → M value.

(** SerializeJSONProperty on a value [v] read from its holder:
    - if [v] is an object that finds the method [toJSON], the method is
      called on it and its result is serialized in place of [v];
    - an object is then serialized member by member, [stack] holding the
      objects being serialized: meeting one of them again is a TypeError.
    The result is [None] where JSON.stringify yields undefined.  [depth] is
    how deep the engine lets the serialization nest: the language sets no
    bound, an engine throws a RangeError when its call stack is full, and
    checks for that before it looks for a cycle. *)
Fixpoint SerializeJSONProperty (depth : nat) (stack : list loc) (v : value)
  : M (option string) :=
  match v with
  | VObject l =>
      match depth with
      | 0 => λ h, (Throw RangeError, h)
      | S depth' =>
          let! v' := (λ h, if toJSON_method h l then toJSON v h else (Ok v, h)) in
          match v' with
          | VObject l' => λ h,
              if decide (l' ∈ stack) then (Throw (TypeError CircularStructure), h)
              else
                (let! parts :=
                   for_each (λ kv,
                               let! s := SerializeJSONProperty depth' (l' :: stack) (snd kv) in
                               ret (fst kv, s))
                            (JSON_children h l') in
                 ret (Some
                   match o_kind (obj_at h l') with
                   | ArrayKind _ =>
                       "[" +:+ join "," (default "null" ∘ snd <$> parts) +:+ "]"
                   | OrdinaryKind =>
                       "{" +:+
                       join "," (omap (λ ks, k ← fst ks; s ← snd ks;
                                             Some (QuoteJSONString k +:+ ":" +:+ s)) parts)
                       +:+ "}"
                   end)) h
          | _ => read (λ _, SerializeJSONPrimitive v')
          end
      end
  | _ => read (λ _, SerializeJSONPrimitive v)
  end.

(** [JSON.stringify(v)] *)
Definition JSON_stringify (depth : nat) (v : value) : M value :=
  let! s := SerializeJSONProperty depth [] v in
  ret (match s with Some s => VString s | None => VUndefined end).

End Serialization.

(** ** Conversion to string *)

Section Host.

(** ToPrimitive on an object runs the [toString]/[valueOf] the object
    finds on itself or its prototypes: code of the host or of the caller.
    It either throws or yields a string, and is taken not to write to the
    heap. *)
Variable ObjectToString : heap → loc → exn + string.

(** ToString, used by template literals and by the Error constructor. *)
Definition ToString (h : heap) (v : value) : result string :=
  match v with
  | VUndefined => Ok "undefined"
  | VNull => Ok "null"
  | VBoolean true => Ok "true"
  | VBoolean false => Ok "false"
  | VNum n => Ok (Number_toString n)
  | VString s => Ok s
  | VSymbol _ => Throw (TypeError SymbolToString)
  | VBigInt n => Ok (BigInt_toString n)
  | VObject l =>
      match ObjectToString h l with
      | inl e => Throw e
      | inr s => Ok s
      end
  end.

End Host.

(** ** The class BaseError *)

Module BaseError.
Section Class.

Variable ObjectToString : heap → loc → exn + string.

(** What the engine records as [stack] when an error is constructed, when
    it records one. *)
Variable trace : option string.

(** How deep the engine lets a serialization nest. *)
Variable depth : nat.

(** [new BaseError(message, metadata)]:
    - the default [metadata = {}];
    - [super(message)]: the Error constructor creates the object with the
      prototype of the class, and, unless [message] is undefined, defines
      the own property [message] as ToString(message), not enumerable;
    - the parameter property [metadata], assigned first, and then the
      field [name = 'BaseError'] are own enumerable properties. *)
Definition constructor (message metadata : value) : M value :=
  let! metadata :=
    match metadata with
    | VUndefined =>
        let! l := alloc (Object (Some Object_prototype) OrdinaryKind []) in
        ret (VObject l)
    | _ => ret metadata
    end in
  let! msg := read (λ h,
    match message with
    | VUndefined => Ok []
    | _ => s ← ToString ObjectToString h message;
           Ok [(KString "message", Property (VString s) false)]
    end) in
  let stack :=
    match trace with
    | Some t => [(KString "stack", Property (VString t) false)]
    | None => []
    end in
  let! this := alloc (Object (Some BaseError_prototype) OrdinaryKind
    (stack ++ msg ++
     [ (KString "metadata", Property metadata true);
       (KString "name", Property (VString "BaseError") true) ])) in
  ret (VObject this).

(** [toString()]:
<<
  const metadataStr = Array.from(Object.entries(this.metadata))
    .map(([key, value]) => `${key}:${value}`).join(' ');
  return `${this.name} (message: ${this.message} ${metadataStr})`;
>> *)
Definition toString (h : heap) (this : value) : result string :=
  entries ← Object_entries h (GetV h this "metadata");
  parts ← mapM (λ kv, v ← ToString ObjectToString h (snd kv);
                      Ok (fst kv +:+ ":" +:+ v))
               (Array_from entries);
  let metadataStr := join " " parts in
  name ← ToString ObjectToString h (GetV h this "name");
  message ← ToString ObjectToString h (GetV h this "message");
  Ok (name +:+ " (message: " +:+ message +:+ " " +:+ metadataStr +:+ ")").

(** [toJSON()]:
<<
  return { ...this.metadata, name: this.name, message: this.message,
           stack: this.stack ?? '', cause: this.cause ?? 'Unknown Cause' };
>> *)
Definition toJSON (this : value) : M value := λ h,
  let props :=
    define (KString "cause") (nullish (GetV h this "cause") (VString "Unknown Cause"))
    (define (KString "stack") (nullish (GetV h this "stack") (VString EmptyString))
    (define (KString "message") (GetV h this "message")
    (define (KString "name") (GetV h this "name")
    (define_all (CopyDataProperties h (GetV h this "metadata")) [])))) in
  (let! l := alloc (Object (Some Object_prototype) OrdinaryKind props) in
   ret (VObject l)) h.

(** The callback of [reduce]: [{ ...output, [key]: value }], a new object
    at every step. *)
Definition spread_with (output : value) (entry : string * value) : M value := λ h,
  let props :=
    define (KString (fst entry)) (snd entry)
      (define_all (CopyDataProperties h output) []) in
  (let! l := alloc (Object (Some Object_prototype) OrdinaryKind props) in
   ret (VObject l)) h.

(** [xs.reduce(f, init)] *)
Fixpoint reduce {A B} (f : B → A → M B) (xs : list A) (init : B) : M B :=
  match xs with
  | [] => ret init
  | x :: xs' => let! acc := f init x in reduce f xs' acc
  end.

(** [static fromCatch(error)]:
<<
  if (error instanceof BaseError) { return error; }
  const message = 'message' in error ? error.message : JSON.stringify(error);
  const metadata = Array.from(Object.entries(error)).reduce(
    (output, [key, value]) => { return { ...output, [key]: value }; }, {});
  return new BaseError(message, metadata);
>> *)
Definition fromCatch (error : value) : M value := λ h,
  if instanceof_BaseError h error then (Ok error, h)
  else
    (let! has := read (λ h, In_operator h "message" error) in
     let! message :=
       (if has : bool then read (λ h, Ok (GetV h error "message"))
        else JSON_stringify toJSON depth error) in
     let! entries := read (λ h, Object_entries h error) in
     let! init := (let! l := alloc (Object (Some Object_prototype) OrdinaryKind []) in
                   ret (VObject l)) in
     let! metadata := reduce spread_with (Array_from entries) init in
     constructor message metadata) h.

End Class.
End BaseError.

(** The earlier revision of the class kept in the repository (part_000 and
    packages/js-errors/src/lib/js-errors.ts) closes the parenthesis before
    the metadata:
<<
    return `${this.name} (message: ${this.message}) ${metadataStr}`;
>> *)
Module Legacy.
Section Class.

Variable ObjectToString : heap → loc → exn + string.

Definition toString (h : heap) (this : value) : result string :=
  entries ← Object_entries h (GetV h this "metadata");
  parts ← mapM (λ kv, v ← ToString ObjectToString h (snd kv);
                      Ok (fst kv +:+ ":" +:+ v))
               (Array_from entries);
  let metadataStr := join " " parts in
  name ← ToString ObjectToString h (GetV h this "name");
  message ← ToString ObjectToString h (GetV h this "message");
  Ok (name +:+ " (message: " +:+ message +:+ ") " +:+ metadataStr).

End Class.
End Legacy.

(** ** Running the package's tests *)

Module Tests.

(** A host whose objects print as plain objects do. *)
Definition host : heap → loc → exn + string := λ _ _, inr "[object Object]".

(** The stack the engine records. *)
Definition trace : option string := Some "Error: at <anonymous>".

(** An engine that lets a serialization nest sixty-four objects deep. *)
Definition depth : nat := 64.

Definition new (message metadata : value) : M value :=
  BaseError.constructor host trace message metadata.
Definition fromCatch : value → M value := BaseError.fromCatch host trace depth.

Definition plain (props : list (string * value)) : object :=
  Object (Some Object_prototype) OrdinaryKind
    ((λ kv, (KString (fst kv), Property (snd kv) true)) <$> props).

(** [{ message: 'Custom error', code: 'ERR_123' }] *)
Definition custom_error : heap :=
  initial_heap ++ [plain [("message", VString "Custom error"); ("code", VString "ERR_123")]].
(** [{ status: 500, details: 'Server error' }] *)
Definition server_error : heap :=
  initial_heap ++ [plain [("status", VNumber 500); ("details", VString "Server error")]].
(** [const o = { message: 'Circular error' }; o.self = o] *)
Definition circular_with_message : heap :=
  initial_heap ++ [plain [("message", VString "Circular error"); ("self", VObject 4)]].
(** [const o = {}; o.self = o] *)
Definition circular : heap :=
  initial_heap ++ [plain [("self", VObject 4)]].
(** [{}] *)
Definition empty : heap := initial_heap ++ [plain []].
(** [{ message: Symbol() }] *)
Definition symbol_message : heap :=
  initial_heap ++ [plain [("message", VSymbol 0)]].
(** [{ name: 'TypeError', message: 'Type mismatch' }] *)
Definition named_error : heap :=
  initial_heap ++ [plain [("name", VString "TypeError"); ("message", VString "Type mismatch")]].
(** [new TypeError('Type mismatch')], with the prototype of TypeError *)
Definition type_error : heap :=
  initial_heap ++
  [ Object (Some Error_prototype) OrdinaryKind
      [(KString "name", Property (VString "TypeError") false)];
    Object (Some 4) OrdinaryKind
      [(KString "stack", Property (VString "TypeError: Type mismatch") false);
       (KString "message", Property (VString "Type mismatch") false)] ].
(** [['error', 'details']] *)
Definition array_error : heap :=
  initial_heap ++
  [ Object (Some Array_prototype) (ArrayKind 2)
      [(KString "0", Property (VString "error") true);
       (KString "1", Property (VString "details") true)] ].

(** The heap and the instance after [new BaseError(message, metadata)],
    the metadata literal being allocated first. *)
Definition after_new (message : string) (metadata : list (string * value))
  : result value * heap :=
  new (VString message) (VObject 4) (initial_heap ++ [plain metadata]).

(** [new BaseError('Test error')] *)
Definition test_error : result value * heap :=
  new (VString "Test error") VUndefined initial_heap.


(** The heaps after some constructions of the tests and of the README;
    the instance is at location 5, its metadata at 4. *)
Definition original : heap :=
  snd (after_new "Original error" [("code", VString "ERR_001")]).
Definition merged : heap :=
  snd (after_new "Test error" [("userId", VNumber 123); ("requestId", VString "abc-123")]).
Definition database : heap :=
  snd (after_new "Database connection failed"
         [("host", VString "localhost"); ("port", VNumber 5432); ("retries", VNumber 3)]).
(** [new BaseError('Test error', { b: 1, 0: 2 })] *)
Definition indexed : heap :=
  snd (after_new "Test error" [("b", VNumber 1); ("0", VNumber 2)]).

(** An error whose holder has set [error.metadata = null]. *)
Definition null_metadata : heap :=
  initial_heap ++
  [ Object (Some BaseError_prototype) OrdinaryKind
      [ (KString "stack", Property (VString "Error: at <anonymous>") false);
        (KString "message", Property (VString "Test error") false);
        (KString "metadata", Property VNull true);
        (KString "name", Property (VString "BaseError") true) ] ].
(** [new BaseError('Test error', { tag: Symbol() })] *)
Definition symbol_entry : heap :=
  snd (after_new "Test error" [("tag", VSymbol 0)]).
(** The README's [class AuthorizationError extends BaseError] with
    [override name = 'AuthorizationError'], and
    [new AuthorizationError('User not authorized')]: the prototype of the
    subclass is at location 4, the metadata at 5, the error at 6. *)
Definition authorization_error : heap :=
  initial_heap ++
  [ Object (Some BaseError_prototype) OrdinaryKind [];
    plain [];
    Object (Some 4) OrdinaryKind
      [ (KString "stack", Property (VString "Error: at authorize") false);
        (KString "message", Property (VString "User not authorized") false);
        (KString "metadata", Property (VObject 5) true);
        (KString "name", Property (VString "AuthorizationError") true) ] ].

(** [{ b: 1, message: 'm', 0: 2 }] *)
Definition mixed_keys : heap :=
  initial_heap ++ [plain [("b", VNumber 1); ("message", VString "m"); ("0", VNumber 2)]].
(** [new BaseError('Test error', { 0: 'a', b: 1 })] *)
Definition ordered : heap :=
  snd (after_new "Test error" [("0", VString "a"); ("b", VNumber 1)]).
(** [{ message: 'Request failed', name: 'FetchError', cause: 'socket hang up',
       code: 'ECONNRESET' }] *)
Definition caused_error : heap :=
  initial_heap ++
  [plain [("message", VString "Request failed"); ("name", VString "FetchError");
          ("cause", VString "socket hang up"); ("code", VString "ECONNRESET")]].

(** An error as the constructor leaves it, with the properties added to
    it since. *)
Definition error_object (message : string) (metadata : value)
    (added : list (string * value)) : object :=
  Object (Some BaseError_prototype) OrdinaryKind
    ([ (KString "stack", Property (VString "Error: at <anonymous>") false);
       (KString "message", Property (VString message) false);
       (KString "metadata", Property metadata true);
       (KString "name", Property (VString "BaseError") true) ]
     ++ ((λ kv, (KString (fst kv), Property (snd kv) true)) <$> added)).

(** [{ ids: [1n, 2n] }]: the array is at location 4, the object at 5. *)
Definition bigint_list : heap :=
  initial_heap ++
  [ Object (Some Array_prototype) (ArrayKind 2)
      [(KString "0", Property (VBigInt 1) true);
       (KString "1", Property (VBigInt 2) true)];
    plain [("ids", VObject 4)] ].
(** [{ err: new BaseError('inner') }]: the metadata of the error is at
    location 4, the error at 5, the object at 6. *)
Definition nested_error : heap :=
  initial_heap ++
  [ plain []; error_object "inner" (VObject 4) []; plain [("err", VObject 5)] ].
(** [const e = new BaseError('x'); const o = { err: e }; e.back = o] *)
Definition nested_back : heap :=
  initial_heap ++
  [ plain []; error_object "x" (VObject 4) [("back", VObject 6)];
    plain [("err", VObject 5)] ].
(** [const e = new BaseError('x'); e.metadata.self = e; const o = { err: e }] *)
Definition nested_self : heap :=
  initial_heap ++
  [ plain [("self", VObject 5)]; error_object "x" (VObject 4) [];
    plain [("err", VObject 5)] ].
(** [const a = []; a.self = a] *)
Definition array_self : heap :=
  initial_heap ++
  [ Object (Some Array_prototype) (ArrayKind 0)
      [(KString "self", Property (VObject 4) true)] ].
(** [new BaseError] on a message of two lines, [a] and [b] *)
Definition two_lines : heap :=
  snd (new (VString ("a" +:+ String "010"%char "b")) VUndefined initial_heap).
(** [new BaseError('Test error', ['x', 'y'])], an array for metadata *)
Definition array_metadata : heap :=
  snd (new (VString "Test error") (VObject 4)
         (initial_heap ++
          [ Object (Some Array_prototype) (ArrayKind 2)
              [(KString "0", Property (VString "x") true);
               (KString "1", Property (VString "y") true)] ])).
(** [{ message: 'm', tag: Symbol() }] *)
Definition symbol_tag : heap :=
  initial_heap ++ [plain [("message", VString "m"); ("tag", VSymbol 0)]].

(** The heaps after [fromCatch] on some inputs; the result is the last
    object allocated, its metadata the one before. *)
Definition custom_result : heap := snd (fromCatch (VObject 4) custom_error).
Definition named_result : heap := snd (fromCatch (VObject 4) named_error).
Definition server_result : heap := snd (fromCatch (VObject 4) server_error).
Definition circular_result : heap := snd (fromCatch (VObject 4) circular_with_message).
Definition array_result : heap := snd (fromCatch (VObject 4) array_error).
Definition empty_result : heap := snd (fromCatch (VObject 4) empty).
Definition type_error_result : heap := snd (fromCatch (VObject 5) type_error).
Definition mixed_result : heap := snd (fromCatch (VObject 4) mixed_keys).
Definition caused_result : heap := snd (fromCatch (VObject 4) caused_error).
Definition nested_result : heap := snd (fromCatch (VObject 6) nested_error).
Definition nested_back_result : heap := snd (fromCatch (VObject 6) nested_back).
Definition array_self_result : heap := snd (fromCatch (VObject 4) array_self).
Definition symbol_tag_result : heap := snd (fromCatch (VObject 4) symbol_tag).

End Tests.

(** ** The vocabulary of the specification *)

Definition is_primitive (v : value) : bool :=
  match v with
  | VObject _ => false
  | _ => true
  end.

(** The entries of a metadata object in insertion order: its enumerable
    string-keyed properties as they were created. *)
Definition insertion_order_entries (o : object) : list (string * value) :=
  omap (λ kp, match fst kp with
              | KString s =>
                  if p_enumerable (snd kp) then Some (s, p_value (snd kp)) else None
              | KSymbol _ => None
              end) (o_props o).

(** An object as the language builds them: no key occurs twice. *)
Definition unique_keys (o : object) : Prop := NoDup (o_props o).*1.

(** Moreover, the [length] of an array is not one of its stored
    properties. *)
Definition language_object (o : object) : Prop :=
  unique_keys o ∧ (o_kind o = OrdinaryKind ∨ KString "length" ∉ (o_props o).*1).

(** No string key of the object is an array index. *)
Definition no_index_keys (o : object) : Prop :=
  Forall (λ s, array_index s = None) (string_keys (o_props o)).

Section Vocabulary.

Variable ObjectToString : heap → loc → exn + string.

(** The text rendering as the specification words it:
    ["<name> (message: <message> <key1>:<value1> <key2>:<value2> ...)"],
    the metadata entries in insertion order, each value under its default
    text coercion. *)
Definition toText (h : heap) (this : value) : result string :=
  match GetV h this "metadata" with
  | VObject m =>
      rendered ← mapM (λ kv, v ← ToString ObjectToString h (snd kv);
                             Ok (fst kv +:+ ":" +:+ v))
                      (insertion_order_entries (obj_at h m));
      name ← ToString ObjectToString h (GetV h this "name");
      message ← ToString ObjectToString h (GetV h this "message");
      Ok (name +:+ " (message: " +:+ message +:+ " " +:+ join " " rendered +:+ ")")
  | _ => Throw (TypeError NullishToObject)
  end.


End Vocabulary.

(** The line of text of the specification:
    ["<name> (message: <message> <key1>:<value1> <key2>:<value2> ...)"],
    [parts] being the texts [<key>:<value>] of the entries. *)
Definition rendering (name message : string) (parts : list string) : string :=
  name +:+ " (message: " +:+ message +:+ " " +:+ join " " parts +:+ ")".

(** The line breaks of a text: its line feeds and carriage returns. *)
Fixpoint line_breaks (s : string) : nat :=
  match s with
  | EmptyString => 0
  | String c s' =>
      (if bool_decide (c = "010"%char ∨ c = "013"%char) then 1 else 0) + line_breaks s'
  end.

(** The structured output as the specification words it: the fixed keys
    [name], [message], [stack] (the empty string when there is none) and
    [cause] (the sentinel when unset) win over a metadata entry of the same
    name; every other key is the enumerable own property of the metadata. *)
Definition structured_field (h : heap) (this : value) (m : loc) (q : key) : option value :=
  if decide (q = KString "name") then Some (GetV h this "name")
  else if decide (q = KString "message") then Some (GetV h this "message")
  else if decide (q = KString "stack")
       then Some (nullish (GetV h this "stack") (VString EmptyString))
  else if decide (q = KString "cause")
       then Some (nullish (GetV h this "cause") (VString "Unknown Cause"))
  else enumerable_value (obj_at h m) q.

(** The metadata the specification asks of a normalized value: the own
    enumerable string-keyed properties of the input, and nothing else. *)
Definition harvested (input : object) (q : key) : option property :=
  match q with
  | KString _ => (λ v, Property v true) <$> enumerable_value input q
  | KSymbol _ => None
  end.

(** ** Auxiliary notions of the proofs *)

(** The instance the constructor allocates. *)
Definition instance (trace : option string) (message : option string)
    (metadata : value) : object :=
  Object (Some BaseError_prototype) OrdinaryKind
    (match trace with
     | Some t => [(KString "stack", Property (VString t) false)]
     | None => []
     end ++
     match message with
     | Some s => [(KString "message", Property (VString s) false)]
     | None => []
     end ++
     [ (KString "metadata", Property metadata true);
       (KString "name", Property (VString "BaseError") true) ]).

(** The message [fromCatch] extracts from an object. *)
Definition extracted_message (depth : nat) (l : loc) : M value := λ h,
  if HasProperty h l (KString "message") then (Ok (Get h l (KString "message")), h)
  else JSON_stringify BaseError.toJSON depth (VObject l) h.

(** A computation that ends, and leaves the objects of the heap as they
    were: it only allocates. *)
Definition steady {A} (m : M A) : Prop :=
  ∀ h, fst (m h) ≠ OutOfFuel ∧ ∃ new, snd (m h) = h ++ new.

(** The value the last entry for [k] gives it. *)
Fixpoint last_value {K} `{EqDecision K} (k : K) (es : list (K * value)) : option value :=
  match es with
  | [] => None
  | e :: es' =>
      match last_value k es' with
      | Some w => Some w
      | None => if decide (fst e = k) then Some (snd e) else None
      end
  end.

(** [s] may come before [t] when an object lists its keys: an array index
    before a larger index and before every key that is no index. *)
Definition before (s t : string) : Prop :=
  match array_index s, array_index t with
  | Some a, Some b => (a ≤ b)%N
  | Some _, None => True
  | None, Some _ => False
  | None, None => True
  end.

#[global] Instance before_dec (s t : string) : Decision (before s t).
Proof. unfold before. destruct (array_index s), (array_index t); apply _. Defined.

(** The property list of an object literal that defines the given entries
    one after the other. *)
Definition props_of (es : list (string * value)) : list (key * property) :=
  (λ kv, (KString (fst kv), Property (snd kv) true)) <$> es.

(** * Properties *)

(** ** The outcome monad *)

Lemma result_bind_Ok {A B} (f : A → result B) (a : A) : (Ok a ≫= f) = f a.
Proof. reflexivity. Qed.

Lemma mapM_cons {A B} (f : A → result B) (x : A) (xs : list A) :
  mapM f (x :: xs) = (y ← f x; k ← mapM f xs; Ok (y :: k)).
Proof. reflexivity. Qed.

Lemma mapM_no_fuel {A B} (f : A → result B) (xs : list A) :
  (∀ x, x ∈ xs → f x ≠ OutOfFuel) → mapM f xs ≠ OutOfFuel.
Proof.
  induction xs as [|x xs IH]; intros Hall; [discriminate|].
  rewrite mapM_cons.
  pose proof (Hall x (list_elem_of_here x xs)) as Hx.
  destruct (f x) as [y| |]; simpl; [|discriminate|congruence].
  assert (mapM f xs ≠ OutOfFuel) as Hxs.
  { apply IH. intros z Hz. apply Hall. by apply list_elem_of_further. }
  destruct (mapM f xs); simpl; [discriminate|discriminate|congruence].
Qed.

Lemma mapM_throws {A B} (f : A → result B) (xs : list A) (x : A) :
  x ∈ xs → is_throw (f x) = true →
  (∀ y, y ∈ xs → f y ≠ OutOfFuel) →
  ∃ e, mapM f xs = Throw e.
Proof.
  induction xs as [|z xs IH]; intros Hin Hthrow Hfuel.
  - by apply not_elem_of_nil in Hin.
  - rewrite mapM_cons.
    pose proof (Hfuel z (list_elem_of_here z xs)) as Hz.
    destruct (f z) as [y|e|] eqn:Hfz; simpl; [|by exists e|done].
    apply elem_of_cons in Hin as [->|Hin].
    { rewrite Hfz in Hthrow. discriminate. }
    destruct IH as [e He]; [done|done| |].
    { intros w Hw. apply Hfuel. by apply list_elem_of_further. }
    rewrite He. by exists e.
Qed.

(** ** Reading the heap *)

Lemma obj_at_outside (h : heap) (l : loc) :
  (length h ≤ l)%nat → obj_at h l = empty_object.
Proof. intros Hl. unfold obj_at. by rewrite lookup_ge_None_2. Qed.

Lemma obj_at_app_l (h new : heap) (l : loc) :
  l < length h → obj_at (h ++ new) l = obj_at h l.
Proof. intros Hl. unfold obj_at. by rewrite lookup_app_l. Qed.

Lemma obj_at_app_new (h : heap) (o : object) (new : heap) :
  obj_at (h ++ o :: new) (length h) = o.
Proof. unfold obj_at. by rewrite list_lookup_middle. Qed.

Lemma JSON_children_outside (h : heap) (l : loc) :
  (length h ≤ l)%nat → JSON_children h l = [].
Proof. intros Hl. unfold JSON_children. by rewrite obj_at_outside. Qed.

(** What a walk of the prototype chain finds, it finds with any larger
    bound: on a chain that ends, the bound does not matter. *)
Lemma HasProperty_fuel_mono (n m : nat) (h : heap) (l : loc) (k : key) :
  (n ≤ m)%nat → HasProperty_fuel n h l k = true → HasProperty_fuel m h l k = true.
Proof.
  revert m l. induction n as [|n IH]; intros m l Hle; [discriminate|].
  destruct m as [|m]; [lia|]. simpl.
  destruct (GetOwnProperty (obj_at h l) k); [done|].
  destruct (o_proto (obj_at h l)); [|done]. apply IH. lia.
Qed.

Lemma Get_fuel_mono (n m : nat) (h : heap) (l : loc) (k : key) :
  (n ≤ m)%nat → HasProperty_fuel n h l k = true → Get_fuel m h l k = Get_fuel n h l k.
Proof.
  revert m l. induction n as [|n IH]; intros m l Hle; [discriminate|].
  destruct m as [|m]; [lia|]. simpl.
  destruct (GetOwnProperty (obj_at h l) k); [done|].
  destruct (o_proto (obj_at h l)); [|done]. apply IH. lia.
Qed.

Lemma InPrototypeChain_fuel_mono (n m : nat) (h : heap) (target l : loc) :
  (n ≤ m)%nat → InPrototypeChain_fuel n h target l = true →
  InPrototypeChain_fuel m h target l = true.
Proof.
  revert m l. induction n as [|n IH]; intros m l Hle; [discriminate|].
  destruct m as [|m]; [lia|]. simpl.
  destruct (o_proto (obj_at h l)) as [p|]; [|done].
  case_decide; [done|]. apply IH. lia.
Qed.

(** ** Computations that only allocate *)

Lemma steady_ret {A} (a : A) : steady (ret a).
Proof. intros h. split; [done|]. exists []. by rewrite app_nil_r. Qed.

Lemma steady_throw {A} (e : exn) : steady (λ h, (Throw e : result A, h)).
Proof. intros h. split; [done|]. exists []. by rewrite app_nil_r. Qed.

Lemma steady_read {A} (f : heap → result A) :
  (∀ h, f h ≠ OutOfFuel) → steady (read f).
Proof. intros Hf h. split; [apply Hf|]. exists []. by rewrite app_nil_r. Qed.

Lemma steady_alloc (o : object) : steady (alloc o).
Proof. intros h. split; [done|]. by exists [o]. Qed.

Lemma steady_bind {A B} (m : M A) (k : A → M B) :
  steady m → (∀ a, steady (k a)) → steady (bind m k).
Proof.
  intros Hm Hk h. unfold bind.
  destruct (Hm h) as [Hend [new Hnew]].
  destruct (m h) as [[a|e|] h']; simpl in *; subst h'.
  - destruct (Hk a (h ++ new)) as [Hend' [new' Hnew']].
    split; [done|]. exists (new ++ new'). by rewrite Hnew', app_assoc.
  - split; [done|]. by exists new.
  - done.
Qed.

Lemma steady_for_each {A B} (f : A → M B) (xs : list A) :
  (∀ x, steady (f x)) → steady (for_each f xs).
Proof.
  intros Hf. induction xs as [|x xs IH]; simpl; [apply steady_ret|].
  apply steady_bind; [apply Hf|]. intros y.
  apply steady_bind; [apply IH|]. intros ys. apply steady_ret.
Qed.

Lemma toJSON_steady (this : value) : steady (BaseError.toJSON this).
Proof. intros h. split; [done|]. by eexists [_]. Qed.

(** ** Serialization *)

Lemma SerializeJSONPrimitive_ends (v : value) : SerializeJSONPrimitive v ≠ OutOfFuel.
Proof. by destruct v as [| |[]| | | | |]. Qed.

(** A serialization ends, by a text, an exception or the RangeError of the
    engine, and writes to no object. *)
Lemma SerializeJSONProperty_steady (depth : nat) (stack : list loc) (v : value) :
  steady (SerializeJSONProperty BaseError.toJSON depth stack v).
Proof.
  revert stack v. induction depth as [|depth IH]; intros stack v.
  - destruct v; try (apply steady_read; intros; apply SerializeJSONPrimitive_ends).
    apply steady_throw.
  - destruct v as [| |b| | | | |l];
      try (apply steady_read; intros; apply SerializeJSONPrimitive_ends).
    cbn [SerializeJSONProperty]. apply steady_bind.
    + intros h. destruct (toJSON_method h l); [apply toJSON_steady|apply steady_ret].
    + intros v'. destruct v' as [| |b| | | | |l'];
        try (apply steady_read; intros; apply SerializeJSONPrimitive_ends).
      intros h. case_decide; [apply steady_throw|].
      apply steady_bind; [|intros; apply steady_ret].
      apply steady_for_each. intros kv.
      apply steady_bind; [apply IH|intros; apply steady_ret].
Qed.

Lemma JSON_stringify_steady (depth : nat) (v : value) :
  steady (JSON_stringify BaseError.toJSON depth v).
Proof.
  apply steady_bind; [apply SerializeJSONProperty_steady|intros; apply steady_ret].
Qed.

Lemma toJSON_method_outside (h : heap) (l : loc) :
  (length h ≤ l)%nat → toJSON_method h l = false.
Proof.
  intros Hl. unfold toJSON_method. destruct (length h) eqn:Hlen; [done|].
  simpl. by rewrite lookup_ge_None_2 by lia.
Qed.

(** Serializing an object leaves the object as it was. *)
Lemma JSON_stringify_input (depth : nat) (h : heap) (l : loc) :
  obj_at (snd (JSON_stringify BaseError.toJSON depth (VObject l) h)) l = obj_at h l.
Proof.
  destruct (decide (l < length h)) as [Hl|Hl].
  - destruct (JSON_stringify_steady depth (VObject l) h) as [_ [new ->]].
    by apply obj_at_app_l.
  - unfold JSON_stringify, bind. destruct depth as [|depth]; [done|].
    cbn [SerializeJSONProperty]. unfold bind.
    rewrite toJSON_method_outside by lia.
    rewrite decide_False by apply not_elem_of_nil.
    rewrite JSON_children_outside by lia. done.
Qed.

Lemma bind_Ok_inv {A B} (m : M A) (k : A → M B) (h : heap) (b : B) :
  fst (bind m k h) = Ok b → ∃ a h', m h = (Ok a, h') ∧ fst (k a h') = Ok b.
Proof.
  unfold bind. destruct (m h) as [[a|e|] h']; simpl; [|done|done]. eauto.
Qed.

(** What serializing an object yields, when it yields: a text. *)
Lemma JSON_stringify_object (depth : nat) (h : heap) (l : loc) (v : value) :
  fst (JSON_stringify BaseError.toJSON depth (VObject l) h) = Ok v → ∃ s, v = VString s.
Proof.
  intros (r & h' & Hser & [= <-])%bind_Ok_inv.
  enough (is_Some r) as [s ->] by eauto.
  destruct depth as [|depth]; [done|]. cbn [SerializeJSONProperty] in Hser.
  assert (∃ l' h1,
    fst ((if decide (l' ∈ []) then (Throw (TypeError CircularStructure), h1)
          else bind
                 (for_each
                    (λ kv, let! s := SerializeJSONProperty BaseError.toJSON depth [l']
                                       (snd kv) in ret (fst kv, s))
                    (JSON_children h1 l'))
                 (λ parts, ret (Some
                    match o_kind (obj_at h1 l') with
                    | ArrayKind _ =>
                        "[" +:+ join "," (default "null" ∘ snd <$> parts) +:+ "]"
                    | OrdinaryKind =>
                        "{" +:+
                        join "," (omap (λ ks, k ← fst ks; s ← snd ks;
                                              Some (QuoteJSONString k +:+ ":" +:+ s)) parts)
                        +:+ "}"
                    end)) h1) : result (option string) * heap) = Ok r)
    as (l' & h1 & Hrest).
  { apply (f_equal fst) in Hser. apply bind_Ok_inv in Hser as (v' & h1 & Hv' & Hrest).
    destruct (toJSON_method h l); injection Hv' as <- <-; eauto. }
  rewrite decide_False in Hrest by apply not_elem_of_nil.
  apply bind_Ok_inv in Hrest as (parts & h2 & _ & [= <-]). eauto.
Qed.

(** ** Property lists *)

Lemma assoc_define k v ps q :
  assoc q (define k v ps) = if decide (k = q) then Some (Property v true) else assoc q ps.
Proof.
  induction ps as [|[k' p] ps IH]; simpl.
  - by destruct (decide (k = q)).
  - destruct (decide (k' = k)) as [->|Hne]; simpl.
    + by destruct (decide (k = q)).
    + destruct (decide (k' = q)) as [->|Hne']; [by rewrite decide_False|done].
Qed.

Lemma assoc_define_all kvs ps q :
  assoc q (define_all kvs ps) =
  match last_value q kvs with
  | Some v => Some (Property v true)
  | None => assoc q ps
  end.
Proof.
  unfold define_all. revert ps. induction kvs as [|[k v] kvs IH]; intros ps; [done|].
  simpl. rewrite IH, assoc_define.
  destruct (last_value q kvs); [done|]. by destruct (decide (k = q)).
Qed.

Lemma last_value_omap {K} `{EqDecision K} (g : K → option value) (ks : list K) (k : K) :
  last_value k (omap (λ k, pair k <$> g k) ks) = if decide (k ∈ ks) then g k else None.
Proof.
  induction ks as [|k' ks IH]; [done|].
  assert (last_value k (omap (λ k, pair k <$> g k) (k' :: ks)) =
          match last_value k (omap (λ k, pair k <$> g k) ks) with
          | Some w => Some w
          | None => if decide (k' = k) then g k' else None
          end) as ->.
  { cbn [omap list_omap]. destruct (g k') as [v|]; simpl.
    - done.
    - destruct (last_value k _); [done|]. by destruct (decide (k' = k)). }
  rewrite IH. destruct (decide (k ∈ ks)) as [Hin|Hnotin].
  - rewrite (decide_True (P := k ∈ k' :: ks)) by (by apply list_elem_of_further).
    destruct (g k) eqn:Hgk; [done|].
    destruct (decide (k' = k)) as [->|Hne]; [done|done].
  - destruct (decide (k' = k)) as [->|Hne].
    + by rewrite (decide_True (P := k ∈ k :: ks)) by apply list_elem_of_here.
    + rewrite (decide_False (P := k ∈ k' :: ks)); [done|].
      intros [->|?]%elem_of_cons; done.
Qed.

(** ** Own keys *)

Lemma elem_of_insert_by_index x y xs :
  y ∈ insert_by_index x xs ↔ y = x ∨ y ∈ xs.
Proof.
  induction xs as [|z xs IH]; simpl.
  - rewrite list_elem_of_singleton. split; [auto|]. intros [?|?%not_elem_of_nil]; done.
  - destruct (fst x <=? fst z)%N.
    + by rewrite elem_of_cons.
    + rewrite !elem_of_cons, IH. tauto.
Qed.

Lemma elem_of_sort_by_index y xs : y ∈ sort_by_index xs ↔ y ∈ xs.
Proof.
  unfold sort_by_index. induction xs as [|x xs IH]; simpl; [done|].
  by rewrite elem_of_insert_by_index, elem_of_cons, IH.
Qed.

Lemma assoc_string_keys s ps :
  is_Some (assoc (KString s) ps) → s ∈ string_keys ps.
Proof.
  unfold string_keys. induction ps as [|[k p] ps IH]; simpl.
  - by intros [? ?].
  - destruct (decide (k = KString s)) as [->|Hne]; simpl.
    + intros _. apply list_elem_of_here.
    + intros Hs. destruct k; simpl; [apply list_elem_of_further|]; auto.
Qed.

Lemma assoc_symbol_keys n ps :
  is_Some (assoc (KSymbol n) ps) → n ∈ symbol_keys ps.
Proof.
  unfold symbol_keys. induction ps as [|[k p] ps IH]; simpl.
  - by intros [? ?].
  - destruct (decide (k = KSymbol n)) as [->|Hne]; simpl.
    + intros _. apply list_elem_of_here.
    + intros Hs. destruct k; simpl; [|apply list_elem_of_further]; auto.
Qed.

Lemma OwnStringKeys_complete (o : object) (s : string) :
  is_Some (GetOwnProperty o (KString s)) → s ∈ OwnStringKeys o.
Proof.
  unfold GetOwnProperty, OwnStringKeys. intros Hs.
  assert (s ∈ string_keys (o_props o) →
          s ∈ (sort_by_index (omap (λ s, (λ n, (n, s)) <$> array_index s)
                                   (string_keys (o_props o)))).*2
            ++ filter (λ s, is_index s = false) (string_keys (o_props o))) as Hlisted.
  { intros Hin. apply elem_of_app.
    destruct (array_index s) as [n|] eqn:Hidx.
    - left. apply list_elem_of_fmap. exists (n, s). split; [done|].
      apply elem_of_sort_by_index, list_elem_of_omap. exists s. by rewrite Hidx.
    - right. apply list_elem_of_filter. split; [|done].
      unfold is_index. rewrite Hidx. apply bool_decide_eq_false. by intros [? ?]. }
  destruct (o_kind o) as [|len].
  - rewrite app_nil_l. by apply Hlisted, assoc_string_keys.
  - destruct (decide (KString s = KString "length")) as [[= ->]|Hne].
    + apply elem_of_app. right. apply list_elem_of_here.
    + apply assoc_string_keys, Hlisted in Hs.
      apply elem_of_app in Hs as [?|?]; apply elem_of_app; [by left|right].
      by apply list_elem_of_further.
Qed.

Lemma OwnPropertyKeys_complete (o : object) (q : key) :
  is_Some (GetOwnProperty o q) → q ∈ OwnPropertyKeys o.
Proof.
  unfold OwnPropertyKeys. intros Hq. apply elem_of_app. destruct q as [s|n].
  - left. apply list_elem_of_fmap. exists s. by split; [|apply OwnStringKeys_complete].
  - right. apply list_elem_of_fmap. exists n. split; [done|].
    apply assoc_symbol_keys. unfold GetOwnProperty in Hq.
    destruct (o_kind o); [done|]. by rewrite decide_False in Hq.
Qed.

Lemma enumerable_value_listed (o : object) (q : key) :
  (if decide (q ∈ OwnPropertyKeys o) then enumerable_value o q else None)
  = enumerable_value o q.
Proof.
  case_decide as Hq; [done|]. unfold enumerable_value.
  destruct (GetOwnProperty o q) eqn:Hown; [|done].
  destruct Hq. by apply OwnPropertyKeys_complete.
Qed.

Lemma enumerable_value_string_listed (o : object) (s : string) :
  (if decide (s ∈ OwnStringKeys o) then enumerable_value o (KString s) else None)
  = enumerable_value o (KString s).
Proof.
  case_decide as Hq; [done|]. unfold enumerable_value.
  destruct (GetOwnProperty o (KString s)) eqn:Hown; [|done].
  destruct Hq. by apply OwnStringKeys_complete.
Qed.

(** The properties a spread copies into an empty literal. *)
Lemma assoc_spread (h : heap) (l : loc) (q : key) :
  assoc q (define_all (CopyDataProperties h (VObject l)) [])
  = (λ v, Property v true) <$> enumerable_value (obj_at h l) q.
Proof.
  rewrite assoc_define_all. unfold CopyDataProperties, enumerable_own.
  rewrite (last_value_omap (λ k, enumerable_value (obj_at h l) (id k))). simpl.
  rewrite enumerable_value_listed. by destruct (enumerable_value _ _).
Qed.

(** The last value [Object.entries] gives a key is its enumerable value. *)
Lemma last_value_entries (o : object) (s : string) :
  last_value s (EnumerableOwnProperties o) = enumerable_value o (KString s).
Proof.
  unfold EnumerableOwnProperties, enumerable_own.
  rewrite (last_value_omap (λ k, enumerable_value o (KString k))).
  apply enumerable_value_string_listed.
Qed.

(** ** The constructor and the accumulation of metadata *)

Section ClassProperties.

Variable ObjectToString : heap → loc → exn + string.
Variable trace : option string.
Variable depth : nat.

Local Abbreviation ToString := (ToString ObjectToString).
Local Abbreviation constructor := (BaseError.constructor ObjectToString trace).
Local Abbreviation fromCatch := (BaseError.fromCatch ObjectToString trace depth).
Local Abbreviation spread_with := BaseError.spread_with.
Local Abbreviation reduce := BaseError.reduce.

Lemma ToString_terminates h v : ToString h v ≠ OutOfFuel.
Proof.
  destruct v as [| |[]| | | | |l]; simpl; try discriminate.
  destruct (ObjectToString h l); discriminate.
Qed.

Lemma constructor_with_metadata (h : heap) (message : value) (m : loc) :
  constructor message (VObject m) h =
  match message with
  | VUndefined => (Ok (VObject (length h)), h ++ [instance trace None (VObject m)])
  | _ =>
      match ToString h message with
      | Ok s => (Ok (VObject (length h)), h ++ [instance trace (Some s) (VObject m)])
      | Throw e => (Throw e, h)
      | OutOfFuel => (OutOfFuel, h)
      end
  end.
Proof.
  unfold BaseError.constructor, bind, ret, read, alloc, instance.
  destruct message as [| |[]| | | | |l]; simpl; try done.
  destruct (ObjectToString h l); done.
Qed.

Lemma spread_with_alloc (h : heap) (output : value) (entry : string * value) :
  spread_with output entry h =
  (Ok (VObject (length h)),
   h ++ [Object (Some Object_prototype) OrdinaryKind
           (define (KString (fst entry)) (snd entry)
              (define_all (CopyDataProperties h output) []))]).
Proof. reflexivity. Qed.

(** The object [reduce] ends with holds, for every key, the last value
    the entries give it, over what the initial object held. *)
Lemma reduce_spread_with (es : list (string * value)) :
  ∀ (h : heap) (la : loc) ps (held : key → option value),
    la < length h →
    obj_at h la = Object (Some Object_prototype) OrdinaryKind ps →
    (∀ q, assoc q ps = (λ v, Property v true) <$> held q) →
    ∃ lf new ps',
      reduce spread_with es (VObject la) h = (Ok (VObject lf), h ++ new) ∧
      la ≤ lf < length (h ++ new) ∧
      obj_at (h ++ new) lf = Object (Some Object_prototype) OrdinaryKind ps' ∧
      ∀ q, assoc q ps' = (λ v, Property v true) <$>
             match q with
             | KString s =>
                 match last_value s es with
                 | Some w => Some w
                 | None => held q
                 end
             | KSymbol _ => held q
             end.
Proof.
  induction es as [|[k v] es IH]; intros h la ps held Hla Hobj Hps.
  - exists la, [], ps. rewrite app_nil_r. simpl. repeat split; try done.
    intros q. rewrite Hps. by destruct q.
  - set (o1 := Object (Some Object_prototype) OrdinaryKind
                 (define (KString k) v (define_all (CopyDataProperties h (VObject la)) []))).
    destruct (IH (h ++ [o1]) (length h) (o_props o1)
                 (λ q, if decide (KString k = q) then Some v else held q))
      as (lf & new & ps' & Hred & Hlf & Hobj' & Hps').
    + rewrite length_app. simpl. lia.
    + by rewrite obj_at_app_new.
    + intros q. unfold o1. cbn [o_props]. rewrite assoc_define, assoc_spread.
      destruct (decide (KString k = q)); [done|].
      unfold enumerable_value, GetOwnProperty. rewrite Hobj. simpl.
      rewrite Hps. by destruct (held q).
    + exists lf, (o1 :: new), ps'.
      replace (h ++ o1 :: new) with ((h ++ [o1]) ++ new) by by rewrite <- app_assoc.
      split; [|split; [lia|split; [done|]]].
      * simpl. unfold bind. rewrite spread_with_alloc. exact Hred.
      * intros q. rewrite Hps'. destruct q as [s|n]; simpl.
        -- destruct (last_value s es); [done|].
           destruct (decide (KString k = KString s)) as [[= ->]|Hne].
           ++ by rewrite decide_True.
           ++ rewrite decide_False; [done|]. congruence.
        -- done.
Qed.

(** The extraction of the message ends, only allocates, allocates nothing
    when the object has a [message], and leaves the object as it was. *)
Lemma extracted_message_steady (l : loc) : steady (extracted_message depth l).
Proof.
  intros h. unfold extracted_message.
  destruct (HasProperty h l (KString "message")); [apply steady_ret|].
  apply JSON_stringify_steady.
Qed.

Lemma extracted_message_input (h : heap) (l : loc) :
  obj_at (snd (extracted_message depth l h)) l = obj_at h l.
Proof.
  unfold extracted_message.
  destruct (HasProperty h l (KString "message")); [done|].
  apply JSON_stringify_input.
Qed.

(** [fromCatch] on an object that is not an instance, once the outcome of
    [reduce] is known: the constructor is run on the extracted message and
    the object [reduce] ended with. *)
Lemma fromCatch_unfold (h : heap) (l lf : loc) (serialized new : heap) :
  instanceof_BaseError h (VObject l) = false →
  snd (extracted_message depth l h) = h ++ serialized →
  reduce spread_with (EnumerableOwnProperties (obj_at h l))
    (VObject (length (h ++ serialized)))
    ((h ++ serialized) ++ [Object (Some Object_prototype) OrdinaryKind []])
  = (Ok (VObject lf),
     ((h ++ serialized) ++ [Object (Some Object_prototype) OrdinaryKind []]) ++ new) →
  fromCatch (VObject l) h =
  match extracted_message depth l h with
  | (Ok message, _) =>
      constructor message (VObject lf)
        (h ++ serialized ++ Object (Some Object_prototype) OrdinaryKind [] :: new)
  | (Throw e, h0) => (Throw e, h0)
  | (OutOfFuel, h0) => (OutOfFuel, h0)
  end.
Proof.
  intros Hinst Hh0 Hred.
  pose proof (extracted_message_input h l) as Hinput. rewrite Hh0 in Hinput.
  set (o0 := Object (Some Object_prototype) OrdinaryKind []) in *.
  replace (h ++ serialized ++ o0 :: new) with (((h ++ serialized) ++ [o0]) ++ new)
    by by rewrite <- !app_assoc.
  assert (∀ message,
    bind (read (λ h, Object_entries h (VObject l)))
      (λ entries,
         let! init := (let! l := alloc o0 in ret (VObject l)) in
         let! metadata := reduce spread_with (Array_from entries) init in
         constructor message metadata) (h ++ serialized)
    = constructor message (VObject lf) (((h ++ serialized) ++ [o0]) ++ new)) as Hrest.
  { intros message. unfold bind at 1, read at 1. cbn [Object_entries].
    rewrite Hinput. unfold bind at 1. unfold bind at 1, alloc at 1, ret at 1.
    unfold Array_from. unfold bind at 1. by rewrite Hred. }
  unfold BaseError.fromCatch. rewrite Hinst.
  unfold bind at 1, read at 1. cbn [In_operator].
  unfold extracted_message in Hh0 |- *.
  destruct (HasProperty h l (KString "message")).
  - cbn [snd] in Hh0. unfold bind at 1, read at 1. cbn [GetV fst].
    fold o0. rewrite Hh0 at 1. apply Hrest.
  - unfold bind at 1.
    destruct (JSON_stringify BaseError.toJSON depth (VObject l) h) as [[message|e|] h1];
      cbn [fst snd] in *; subst h1; [|done|done].
    fold o0. apply Hrest.
Qed.

(** What [fromCatch] does on an object that is not an instance: the
    metadata is a new object holding the harvested properties, and the
    outcome is the constructor's on the extracted message. *)
Lemma fromCatch_object (h : heap) (l : loc) :
  instanceof_BaseError h (VObject l) = false →
  ∃ m new ps,
    length h ≤ m < length (h ++ new) ∧
    obj_at (h ++ new) m = Object (Some Object_prototype) OrdinaryKind ps ∧
    (∀ q, assoc q ps = harvested (obj_at h l) q) ∧
    fromCatch (VObject l) h =
    match extracted_message depth l h with
    | (Ok message, _) => constructor message (VObject m) (h ++ new)
    | (Throw e, h0) => (Throw e, h0)
    | (OutOfFuel, h0) => (OutOfFuel, h0)
    end.
Proof.
  intros Hinst.
  destruct (extracted_message_steady l h) as [_ [serialized Hh0]].
  set (o0 := Object (Some Object_prototype) OrdinaryKind []).
  destruct (reduce_spread_with (EnumerableOwnProperties (obj_at h l))
              ((h ++ serialized) ++ [o0]) (length (h ++ serialized)) [] (λ _, None))
    as (lf & new & ps' & Hred & Hlf & Hobj' & Hps').
  { rewrite !length_app. simpl. lia. }
  { by rewrite obj_at_app_new. }
  { done. }
  exists lf, (serialized ++ o0 :: new), ps'.
  split; [|split; [|split]].
  - rewrite !length_app in *. simpl in *. lia.
  - rewrite <- Hobj'. f_equal. by rewrite <- !app_assoc.
  - intros q. rewrite Hps'. unfold harvested. destruct q as [s|n]; [|done].
    rewrite last_value_entries. by destruct (enumerable_value _ _).
  - by apply fromCatch_unfold.
Qed.

End ClassProperties.

(** ** Reading an instance *)

Lemma Get_own (h : heap) (l : loc) (k : key) (p : property) :
  l < length h → GetOwnProperty (obj_at h l) k = Some p → Get h l k = p_value p.
Proof.
  intros Hl Hown. unfold Get. destruct (length h) as [|n]; [lia|].
  simpl. by rewrite Hown.
Qed.

Lemma instance_name trace message metadata :
  GetOwnProperty (instance trace message metadata) (KString "name")
  = Some (Property (VString "BaseError") true).
Proof. by destruct trace, message. Qed.

Lemma instance_message trace s metadata :
  GetOwnProperty (instance trace (Some s) metadata) (KString "message")
  = Some (Property (VString s) false).
Proof. by destruct trace. Qed.

Lemma instance_metadata trace message metadata :
  GetOwnProperty (instance trace message metadata) (KString "metadata")
  = Some (Property metadata true).
Proof. by destruct trace, message. Qed.

Lemma instance_cause trace message metadata :
  GetOwnProperty (instance trace message metadata) (KString "cause") = None.
Proof. by destruct trace, message. Qed.

Lemma Get_new_instance (h : heap) (o : object) (k : key) (p : property) :
  GetOwnProperty o k = Some p → Get (h ++ [o]) (length h) k = p_value p.
Proof.
  intros Hown. apply Get_own.
  - rewrite length_app. simpl. lia.
  - by rewrite obj_at_app_new.
Qed.

Lemma instanceof_new_instance (h : heap) trace message metadata :
  instanceof_BaseError (h ++ [instance trace message metadata]) (VObject (length h)) = true.
Proof.
  unfold instanceof_BaseError. rewrite length_app, Nat.add_comm. simpl.
  by rewrite obj_at_app_new.
Qed.

(** ** Enumeration order and insertion order *)

Lemma assoc_unique ps k p :
  NoDup ps.*1 → (k, p) ∈ ps → assoc k ps = Some p.
Proof.
  induction ps as [|[k' p'] ps IH]; intros Hnd Hin.
  - by apply not_elem_of_nil in Hin.
  - simpl in *. apply list.NoDup_cons in Hnd as [Hk' Hnd].
    apply elem_of_cons in Hin as [[= -> ->]|Hin]; [by rewrite decide_True|].
    rewrite decide_False; [by apply IH|].
    intros ->. apply Hk', list_elem_of_fmap. by exists (k, p).
Qed.

Lemma no_index_sorted (ks : list string) :
  Forall (λ s, array_index s = None) ks →
  omap (λ s, (λ n, (n, s)) <$> array_index s) ks = [].
Proof. induction 1 as [|s ks Hs _ IH]; [done|]. simpl. by rewrite Hs. Qed.

Lemma no_index_filter (ks : list string) :
  Forall (λ s, array_index s = None) ks →
  filter (λ s, is_index s = false) ks = ks.
Proof.
  induction 1 as [|s ks Hs _ IH]; [done|].
  rewrite filter_cons_True; [by rewrite IH|].
  unfold is_index. rewrite Hs. apply bool_decide_eq_false. by intros [? ?].
Qed.

Lemma enumerable_by_lookup (look : key → option property) ps :
  (∀ k p, (k, p) ∈ ps → look k = Some p) →
  omap (λ s, pair s <$> match look (KString s) with
                        | Some p => if p_enumerable p then Some (p_value p) else None
                        | None => None
                        end) (string_keys ps)
  = insertion_order_entries (Object None OrdinaryKind ps).
Proof.
  unfold insertion_order_entries, string_keys. simpl.
  induction ps as [|[k p] ps IH]; intros Hlook; [done|].
  assert (look k = Some p) as Hk by apply Hlook, list_elem_of_here.
  assert (∀ k p, (k, p) ∈ ps → look k = Some p) as Hrest.
  { intros k' p' Hin. by apply Hlook, list_elem_of_further. }
  specialize (IH Hrest).
  destruct k as [s|n]; cbn [omap list_omap fst snd]; [|exact IH].
  rewrite Hk. destruct (p_enumerable p); simpl; by rewrite IH.
Qed.

Section Claims.

Variable ObjectToString : heap → loc → exn + string.
Variable trace : option string.
Variable depth : nat.

Local Abbreviation constructor := (BaseError.constructor ObjectToString trace).
Local Abbreviation fromCatch := (BaseError.fromCatch ObjectToString trace depth).
Local Abbreviation toString := (BaseError.toString ObjectToString).
Local Abbreviation JSON_stringify := (JSON_stringify BaseError.toJSON depth).

Lemma fromCatch_primitive (h : heap) (v : value) :
  is_primitive v = true →
  fromCatch v h = (Throw (TypeError InOperandNotObject), h).
Proof. by destruct v. Qed.

Lemma fromCatch_instance (h : heap) (e : value) :
  instanceof_BaseError h e = true → fromCatch e h = (Ok e, h).
Proof. intros Hinst. unfold BaseError.fromCatch. by rewrite Hinst. Qed.

(** A successful call on a value that is not an instance: the value is an
    object [l]; the result is a new instance, allocated last; its message
    is the string the Error constructor makes of the extracted message;
    its metadata is a new object holding what was harvested from [l]. *)
Lemma fromCatch_Ok_inv (h : heap) (v r : value) (h' : heap) :
  instanceof_BaseError h v = false →
  fromCatch v h = (Ok r, h') →
  ∃ l m new ps mv msg,
    v = VObject l ∧
    fst (extracted_message depth l h) = Ok mv ∧
    match mv with
    | VUndefined => msg = None
    | _ => ∃ s, ToString ObjectToString (h ++ new) mv = Ok s ∧ msg = Some s
    end ∧
    length h ≤ m < length (h ++ new) ∧
    obj_at (h ++ new) m = Object (Some Object_prototype) OrdinaryKind ps ∧
    (∀ q, assoc q ps = harvested (obj_at h l) q) ∧
    r = VObject (length (h ++ new)) ∧
    h' = (h ++ new) ++ [instance trace msg (VObject m)].
Proof.
  intros Hinst Hcall.
  destruct (is_primitive v) eqn:Hprim.
  { rewrite fromCatch_primitive in Hcall by done. discriminate. }
  destruct v as [| | | | | | |l]; try discriminate.
  destruct (fromCatch_object ObjectToString trace depth h l Hinst)
    as (m & new & ps & Hm & Hobj & Hps & Heq).
  rewrite Heq in Hcall.
  destruct (extracted_message depth l h) as [[mv|e|] h0] eqn:Hmv;
    [|discriminate|discriminate].
  rewrite constructor_with_metadata in Hcall.
  exists l, m, new, ps, mv. rewrite Hmv. cbn [fst].
  destruct mv as [| |b| | | | |l'].
  1: { injection Hcall as <- <-. by exists None. }
  all: match type of Hcall with
       | context [ToString ObjectToString ?hh ?mv] =>
           destruct (ToString ObjectToString hh mv) as [str| |] eqn:Hstr;
             [|discriminate|discriminate]
       end;
       injection Hcall as <- <-; exists (Some str); eauto 10.
Qed.

(** C1 — Normalizing a value that already is a BaseError returns that very
    value, the same reference and not a copy, and the heap, hence the
    value, is left as it was. *)
Theorem fromCatch_instance_identity (h : heap) (e : value) :
  instanceof_BaseError h e = true →
  fromCatch e h = (Ok e, h).
Proof. apply fromCatch_instance. Qed.

(** Whatever the constructor returns is an instance of the class. *)
Lemma constructor_instanceof (h : heap) (message metadata r : value) (h' : heap) :
  constructor message metadata h = (Ok r, h') → instanceof_BaseError h' r = true.
Proof.
  destruct metadata as [| |b| | | | |m].
  1: { unfold BaseError.constructor, bind, ret, read, alloc. simpl.
       destruct message as [| |[]| | | | |l]; simpl;
         try (intros [= <- <-]; apply (instanceof_new_instance _ trace (Some _)));
         try (intros [= <- <-]; apply (instanceof_new_instance _ trace None));
         try discriminate.
       destruct (ObjectToString _ l); [discriminate|].
       intros [= <- <-]. apply (instanceof_new_instance _ trace (Some _)). }
  all: unfold BaseError.constructor, bind, ret, read, alloc; simpl;
       destruct message as [| |[]| | | | |l]; simpl;
         try (intros [= <- <-]; apply (instanceof_new_instance _ trace (Some _)));
         try (intros [= <- <-]; apply (instanceof_new_instance _ trace None));
         try discriminate;
       (destruct (ObjectToString _ l); [discriminate|]);
       intros [= <- <-]; apply (instanceof_new_instance _ trace (Some _)).
Qed.

(** Normalizing twice is normalizing once. *)
Lemma fromCatch_idempotent (h : heap) (v r : value) (h' : heap) :
  fromCatch v h = (Ok r, h') → fromCatch r h' = (Ok r, h').
Proof.
  intros Hcall. apply fromCatch_instance.
  destruct (instanceof_BaseError h v) eqn:Hinst.
  - rewrite fromCatch_instance in Hcall by done.
    by injection Hcall as <- <-.
  - destruct (fromCatch_Ok_inv h v r h' Hinst Hcall)
      as (l & m & new & ps & mv & msg & _ & _ & _ & _ & _ & _ & -> & ->).
    apply instanceof_new_instance.
Qed.

(** The heap after a call is the heap before it, followed by the objects
    the call allocated. *)
Lemma fromCatch_extends (h : heap) (v : value) :
  ∃ new, snd (fromCatch v h) = h ++ new.
Proof.
  destruct (instanceof_BaseError h v) eqn:Hinst.
  { rewrite fromCatch_instance by done. exists []. by rewrite app_nil_r. }
  destruct (is_primitive v) eqn:Hprim.
  { rewrite fromCatch_primitive by done. exists []. by rewrite app_nil_r. }
  destruct v as [| | | | | | |l]; try discriminate.
  destruct (fromCatch_object ObjectToString trace depth h l Hinst)
    as (m & new & ps & Hm & Hobj & Hps & ->).
  destruct (extracted_message_steady depth l h) as [_ [serialized Hh0]].
  destruct (extracted_message depth l h) as [[mv|e|] h0]; cbn [snd] in Hh0; subst h0;
    [|by exists serialized|by exists serialized].
  rewrite constructor_with_metadata.
  destruct mv as [| |b| | | | |l'].
  1: { eexists. simpl. by rewrite <- app_assoc. }
  all: match goal with
       | |- context [ToString ObjectToString ?hh ?mv] =>
           destruct (ToString ObjectToString hh mv)
       end; simpl; eexists; by rewrite <- ?app_assoc.
Qed.

(** C9 — A call has no effect on what existed before it: whatever the
    input and whether the call returns or throws, every object of the
    heap, the input and the values of its properties among them, is after
    the call the object it was; the call only allocates. *)
Theorem fromCatch_frame (h : heap) (v : value) :
  (∃ new, snd (fromCatch v h) = h ++ new) ∧
  (∀ l o, h !! l = Some o → snd (fromCatch v h) !! l = Some o).
Proof.
  destruct (fromCatch_extends h v) as [new Hnew]. split; [by exists new|].
  intros l o Hl. rewrite Hnew. by apply lookup_app_l_Some.
Qed.

(** C10 — The result of normalizing a value that is not an instance is
    named "BaseError": [name] is an own property of the result with that
    value, and reading [name] yields it; the name of the input is not
    consulted. *)
Theorem fromCatch_name (h : heap) (v r : value) (h' : heap) :
  instanceof_BaseError h v = false →
  fromCatch v h = (Ok r, h') →
  ∃ l, r = VObject l ∧
    GetOwnProperty (obj_at h' l) (KString "name")
      = Some (Property (VString "BaseError") true) ∧
    GetV h' r "name" = VString "BaseError".
Proof.
  intros Hinst Hcall.
  destruct (fromCatch_Ok_inv h v r h' Hinst Hcall)
    as (l & m & new & ps & mv & msg & _ & _ & _ & _ & _ & _ & -> & ->).
  eexists. split; [done|]. split.
  - rewrite obj_at_app_new. apply instance_name.
  - simpl. by rewrite (Get_new_instance _ _ _ _ (instance_name _ _ _)).
Qed.

(** C8 — The metadata of a normalized object is a new object whose own
    properties are exactly the own enumerable string-keyed properties of
    the input, each with the very value the input holds (a reference stays
    the same reference): no symbol key, no property that is not
    enumerable on the input. *)
Theorem fromCatch_metadata (h : heap) (l : loc) (r : value) (h' : heap) :
  instanceof_BaseError h (VObject l) = false →
  fromCatch (VObject l) h = (Ok r, h') →
  ∃ m, GetV h' r "metadata" = VObject m ∧
    length h ≤ m < length h' ∧
    o_proto (obj_at h' m) = Some Object_prototype ∧
    o_kind (obj_at h' m) = OrdinaryKind ∧
    ∀ q, GetOwnProperty (obj_at h' m) q = harvested (obj_at h l) q.
Proof.
  intros Hinst Hcall.
  destruct (fromCatch_Ok_inv h _ r h' Hinst Hcall)
    as (l' & m & new & ps & mv & msg & [= <-] & _ & _ & Hm & Hobj & Hps & -> & ->).
  exists m. split; [|split; [|rewrite obj_at_app_l, Hobj by lia; repeat split]].
  - simpl. by rewrite (Get_new_instance _ _ _ _ (instance_metadata _ _ _)).
  - rewrite length_app. simpl. lia.
  - intros q. unfold GetOwnProperty. simpl. apply Hps.
Qed.


(** The call always ends: it returns or it throws. *)
Lemma fromCatch_terminates (h : heap) (v : value) :
  fst (fromCatch v h) ≠ OutOfFuel.
Proof.
  destruct (instanceof_BaseError h v) eqn:Hinst.
  { by rewrite fromCatch_instance. }
  destruct (is_primitive v) eqn:Hprim.
  { by rewrite fromCatch_primitive. }
  destruct v as [| | | | | | |l]; try discriminate.
  destruct (fromCatch_object ObjectToString trace depth h l Hinst)
    as (m & new & ps & Hm & Hobj & Hps & ->).
  assert (∀ mv, fst (constructor mv (VObject m) (h ++ new)) ≠ OutOfFuel) as Hcons.
  { intros mv. rewrite constructor_with_metadata.
    destruct mv as [| |b| | | | |l']; try done;
      match goal with
      | |- context [ToString ObjectToString ?hh ?mv] =>
          pose proof (ToString_terminates ObjectToString hh mv);
          by destruct (ToString ObjectToString hh mv)
      end. }
  destruct (extracted_message_steady depth l h) as [Hends _].
  destruct (extracted_message depth l h) as [[mv|e|] h0]; [apply Hcons|done|done].
Qed.

(** C4 (amended) — On an object that is not an instance and has an own
    or inherited [message] property, no serialization is attempted and the
    outcome is that of constructing a BaseError from the value of that
    property, whatever else the object holds: a string is the result's
    message as it is; undefined leaves the result without a message of
    its own; any other value is converted to a string by the Error
    constructor, and the call throws where that conversion throws (a
    symbol). *)
Theorem fromCatch_message_passthrough (h : heap) (l : loc) :
  instanceof_BaseError h (VObject l) = false →
  HasProperty h l (KString "message") = true →
  ∃ m new,
    length h ≤ m < length (h ++ new) ∧
    let h1 := h ++ new in
    let made msg :=
      (Ok (VObject (length h1)), h1 ++ [instance trace msg (VObject m)]) in
    fromCatch (VObject l) h =
    match Get h l (KString "message") with
    | VString s => made (Some s)
    | VUndefined => made None
    | mv =>
        match ToString ObjectToString h1 mv with
        | Ok s => made (Some s)
        | Throw e => (Throw e, h1)
        | OutOfFuel => (OutOfFuel, h1)
        end
    end.
Proof.
  intros Hinst Hmsg.
  destruct (fromCatch_object ObjectToString trace depth h l Hinst)
    as (m & new & ps & Hm & _ & _ & ->).
  exists m, new. split; [done|].
  unfold extracted_message. rewrite Hmsg, constructor_with_metadata.
  by destruct (Get h l (KString "message")).
Qed.

(** C5 (amended) — On an object that is not an instance and has no
    [message] property, own or inherited, the call does what
    JSON.stringify does on the object.  Where the serialization returns,
    it returns a text; the call returns a new instance whose message is
    that text and whose metadata holds the harvested properties.  Where
    the serialization throws (a bigint among the values), the call throws
    the same exception and returns nothing. *)
Theorem fromCatch_fallback_serialization (h : heap) (l : loc) :
  instanceof_BaseError h (VObject l) = false →
  HasProperty h l (KString "message") = false →
  match JSON_stringify (VObject l) h with
  | (Ok text, _) =>
      ∃ s m new,
        text = VString s ∧
        length h ≤ m < length (h ++ new) ∧
        (∀ q, GetOwnProperty (obj_at (h ++ new) m) q = harvested (obj_at h l) q) ∧
        let h' := (h ++ new) ++ [instance trace (Some s) (VObject m)] in
        fromCatch (VObject l) h = (Ok (VObject (length (h ++ new))), h') ∧
        GetV h' (VObject (length (h ++ new))) "message" = VString s
  | (Throw e, h0) => fromCatch (VObject l) h = (Throw e, h0)
  | (OutOfFuel, _) => False
  end.
Proof.
  intros Hinst Hmsg.
  destruct (fromCatch_object ObjectToString trace depth h l Hinst)
    as (m & new & ps & Hm & Hobj & Hps & ->).
  unfold extracted_message. rewrite Hmsg.
  pose proof (JSON_stringify_object depth h l) as Htext.
  destruct (JSON_stringify_steady depth (VObject l) h) as [Hends _].
  destruct (JSON_stringify (VObject l) h) as [[text|e|] h0]; [|done|done].
  destruct (Htext text eq_refl) as [s ->].
  exists s, m, new. split; [done|]. split; [done|]. split.
  - intros q. unfold GetOwnProperty. rewrite Hobj. simpl. apply Hps.
  - split.
    + by rewrite constructor_with_metadata.
    + simpl. by rewrite (Get_new_instance _ _ _ _ (instance_message _ _ _)).
Qed.

(** C6 (amended) — [toJSON] returns a new flat object: under the fixed keys
    [name], [message], [stack] and [cause] the fields of the error, [stack]
    being the empty string and [cause] "Unknown Cause" when the error has
    none; under every other key the enumerable own property of the
    metadata.  A metadata entry named as a fixed key is overwritten by the
    field.  The key of the stack trace is [stack]. *)
Theorem toJSON_structured (h : heap) (this : value) (m : loc) :
  GetV h this "metadata" = VObject m →
  ∃ props,
    BaseError.toJSON this h =
      (Ok (VObject (length h)),
       h ++ [Object (Some Object_prototype) OrdinaryKind props]) ∧
    ∀ q, assoc q props = (λ v, Property v true) <$> structured_field h this m q.
Proof.
  intros Hmd. eexists. split; [reflexivity|].
  intros q. rewrite !assoc_define, Hmd, assoc_spread. unfold structured_field.
  repeat case_decide; simplify_eq; done.
Qed.

End Claims.

(** ** The structured output of a new error *)

Lemma Get_cause_new (rest : heap) trace message metadata :
  Get ((initial_heap ++ rest) ++ [instance trace message metadata])
      (length (initial_heap ++ rest)) (KString "cause") = VUndefined.
Proof.
  unfold Get.
  assert (length ((initial_heap ++ rest) ++ [instance trace message metadata])
          = S (S (S (S (S (length rest)))))) as ->.
  { rewrite !length_app. simpl. lia. }
  cbn [Get_fuel]. rewrite obj_at_app_new, instance_cause.
  unfold instance at 1. cbn [o_proto].
  rewrite <- app_assoc. reflexivity.
Qed.

Section NewError.

Variable ObjectToString : heap → loc → exn + string.
Variable trace : option string.

Lemma constructor_string (h : heap) (s : string) (metadata : value) :
  ∃ extra metadata',
    BaseError.constructor ObjectToString trace (VString s) metadata h =
    (Ok (VObject (length (h ++ extra))),
     (h ++ extra) ++ [instance trace (Some s) metadata']).
Proof.
  destruct metadata as [| |b| | | | |m].
  1: { exists [Object (Some Object_prototype) OrdinaryKind []], (VObject (length h)).
       reflexivity. }
  all: match goal with
       | |- ∃ _ _, BaseError.constructor _ _ _ ?md _ = _ => exists [], md
       end; rewrite app_nil_r; reflexivity.
Qed.

(** An error that was just constructed from a string, whatever its
    metadata, has no cause: its structured output carries the sentinel. *)
Lemma toJSON_new_cause (rest : heap) (s : string) (metadata : value) :
  ∃ e h' props,
    BaseError.constructor ObjectToString trace (VString s) metadata
      (initial_heap ++ rest) = (Ok e, h') ∧
    BaseError.toJSON e h' =
      (Ok (VObject (length h')),
       h' ++ [Object (Some Object_prototype) OrdinaryKind props]) ∧
    assoc (KString "cause") props = Some (Property (VString "Unknown Cause") true).
Proof.
  destruct (constructor_string (initial_heap ++ rest) s metadata)
    as (extra & metadata' & Hnew).
  eexists _, _, _. split; [exact Hnew|]. split; [reflexivity|].
  rewrite assoc_define, decide_True by done.
  rewrite <- (app_assoc initial_heap rest extra). cbn [GetV].
  by rewrite Get_cause_new.
Qed.

End NewError.

(** ** The claims on the inputs of the tests *)

(** C1, on [new BaseError('Original error', { code: 'ERR_001' })]. *)
Lemma fromCatch_instance_identity_witness :
  instanceof_BaseError Tests.original (VObject 5) = true ∧
  Tests.fromCatch (VObject 5) Tests.original = (Ok (VObject 5), Tests.original).
Proof.
  split; [reflexivity|].
  apply (fromCatch_instance_identity Tests.host Tests.trace Tests.depth). reflexivity.
Defined.


(** C3 — On [const o = {}; o.self = o], an object that refers to itself
    and has no [message], the call throws the TypeError of the
    serialization and returns no error; whereas on the same object with a
    [message], as in the test 'should handle errors with circular
    references gracefully', the call returns an error that keeps the
    reference. *)
Theorem fromCatch_circular_input_throws :
  (instanceof_BaseError Tests.circular (VObject 4) = false ∧
   HasProperty Tests.circular 4 (KString "message") = false ∧
   GetV Tests.circular (VObject 4) "self" = VObject 4 ∧
   Tests.fromCatch (VObject 4) Tests.circular
   = (Throw (TypeError CircularStructure), Tests.circular)) ∧
  (GetV Tests.circular_with_message (VObject 4) "self" = VObject 4 ∧
   Tests.fromCatch (VObject 4) Tests.circular_with_message
   = (Ok (VObject 8), Tests.circular_result) ∧
   GetV Tests.circular_result (GetV Tests.circular_result (VObject 8) "metadata") "self"
   = VObject 4).
Proof. repeat split; reflexivity. Qed.

(** C4 as stated fails on [{ message: Symbol() }]: there is a [message]
    property and the call throws. *)
Lemma fromCatch_symbol_message_throws :
  instanceof_BaseError Tests.symbol_message (VObject 4) = false ∧
  HasProperty Tests.symbol_message 4 (KString "message") = true ∧
  fst (Tests.fromCatch (VObject 4) Tests.symbol_message)
  = Throw (TypeError SymbolToString).
Proof. repeat split; reflexivity. Qed.

(** C4 (amended), on [const o = { message: 'Circular error' }; o.self = o]
    and on [{ message: 'Custom error', code: 'ERR_123' }]: the call returns,
    and the message is the string. *)
Lemma fromCatch_message_passthrough_witness :
  (instanceof_BaseError Tests.circular_with_message (VObject 4) = false ∧
   HasProperty Tests.circular_with_message 4 (KString "message") = true ∧
   ∃ m new,
     Tests.fromCatch (VObject 4) Tests.circular_with_message =
     (Ok (VObject (length (Tests.circular_with_message ++ new))),
      (Tests.circular_with_message ++ new)
        ++ [instance Tests.trace (Some "Circular error") (VObject m)])) ∧
  (instanceof_BaseError Tests.custom_error (VObject 4) = false ∧
   HasProperty Tests.custom_error 4 (KString "message") = true ∧
   ∃ m new,
     Tests.fromCatch (VObject 4) Tests.custom_error =
     (Ok (VObject (length (Tests.custom_error ++ new))),
      (Tests.custom_error ++ new)
        ++ [instance Tests.trace (Some "Custom error") (VObject m)])).
Proof.
  split.
  - split; [reflexivity|]. split; [reflexivity|].
    destruct (fromCatch_message_passthrough Tests.host Tests.trace Tests.depth
                Tests.circular_with_message 4 eq_refl eq_refl)
      as (m & new & _ & Hcall).
    exists m, new. exact Hcall.
  - split; [reflexivity|]. split; [reflexivity|].
    destruct (fromCatch_message_passthrough Tests.host Tests.trace Tests.depth
                Tests.custom_error 4 eq_refl eq_refl)
      as (m & new & _ & Hcall).
    exists m, new. exact Hcall.
Defined.

(** C5 as stated fails on [{ ids: [1n, 2n] }]: not a primitive, no
    [message] property, and no message is set, for the call throws. *)
Lemma fromCatch_bigint_list_throws :
  is_primitive (VObject 5) = false ∧
  instanceof_BaseError Tests.bigint_list (VObject 5) = false ∧
  HasProperty Tests.bigint_list 5 (KString "message") = false ∧
  Tests.fromCatch (VObject 5) Tests.bigint_list
  = (Throw (TypeError BigIntNotSerializable), Tests.bigint_list).
Proof. repeat split; reflexivity. Qed.

(** C5 (amended), on [{}]: the message is the text of the empty object
    and the metadata has no property; on
    [{ status: 500, details: 'Server error' }]: the message holds [status]
    and [500]; and on [{ ids: [1n, 2n] }]: the call throws what the
    serialization throws. *)
Lemma fromCatch_fallback_serialization_witness :
  (instanceof_BaseError Tests.empty (VObject 4) = false ∧
   HasProperty Tests.empty 4 (KString "message") = false ∧
   JSON_stringify BaseError.toJSON Tests.depth (VObject 4) Tests.empty
   = (Ok (VString "{}"), Tests.empty) ∧
   ∃ m new,
     (∀ q, GetOwnProperty (obj_at (Tests.empty ++ new) m) q = None) ∧
     Tests.fromCatch (VObject 4) Tests.empty =
     (Ok (VObject (length (Tests.empty ++ new))),
      (Tests.empty ++ new) ++ [instance Tests.trace (Some "{}") (VObject m)])) ∧
  (∃ s,
     instanceof_BaseError Tests.server_error (VObject 4) = false ∧
     HasProperty Tests.server_error 4 (KString "message") = false ∧
     JSON_stringify BaseError.toJSON Tests.depth (VObject 4) Tests.server_error
     = (Ok (VString s), Tests.server_error) ∧
     includes "status" s = true ∧ includes "500" s = true ∧
     ∃ m new,
       Tests.fromCatch (VObject 4) Tests.server_error =
       (Ok (VObject (length (Tests.server_error ++ new))),
        (Tests.server_error ++ new) ++ [instance Tests.trace (Some s) (VObject m)])) ∧
  (instanceof_BaseError Tests.bigint_list (VObject 5) = false ∧
   HasProperty Tests.bigint_list 5 (KString "message") = false ∧
   JSON_stringify BaseError.toJSON Tests.depth (VObject 5) Tests.bigint_list
   = (Throw (TypeError BigIntNotSerializable), Tests.bigint_list) ∧
   Tests.fromCatch (VObject 5) Tests.bigint_list
   = (Throw (TypeError BigIntNotSerializable), Tests.bigint_list)).
Proof.
  split; [|split].
  - assert (JSON_stringify BaseError.toJSON Tests.depth (VObject 4) Tests.empty
            = (Ok (VString "{}"), Tests.empty)) as Hjson by reflexivity.
    split; [reflexivity|]. split; [reflexivity|]. split; [exact Hjson|].
    pose proof (fromCatch_fallback_serialization Tests.host Tests.trace Tests.depth
                  Tests.empty 4 eq_refl eq_refl) as Hcall.
    rewrite Hjson in Hcall.
    destruct Hcall as (s & m & new & [= <-] & _ & Hq & Hcall & _).
    exists m, new. split; [|exact Hcall].
    intros q. rewrite Hq. destruct q; reflexivity.
  - exists ("{" +:+ QuoteJSONString "status" +:+ ":500,"
              +:+ QuoteJSONString "details" +:+ ":" +:+ QuoteJSONString "Server error" +:+ "}").
    assert (JSON_stringify BaseError.toJSON Tests.depth (VObject 4) Tests.server_error
            = (Ok (VString ("{" +:+ QuoteJSONString "status" +:+ ":500,"
                    +:+ QuoteJSONString "details" +:+ ":"
                    +:+ QuoteJSONString "Server error" +:+ "}")), Tests.server_error))
      as Hjson by reflexivity.
    split; [reflexivity|]. split; [reflexivity|]. split; [exact Hjson|].
    split; [reflexivity|]. split; [reflexivity|].
    pose proof (fromCatch_fallback_serialization Tests.host Tests.trace Tests.depth
                  Tests.server_error 4 eq_refl eq_refl) as Hcall.
    rewrite Hjson in Hcall.
    destruct Hcall as (s & m & new & [= <-] & _ & _ & Hcall & _).
    exists m, new. exact Hcall.
  - assert (JSON_stringify BaseError.toJSON Tests.depth (VObject 5) Tests.bigint_list
            = (Throw (TypeError BigIntNotSerializable), Tests.bigint_list))
      as Hjson by reflexivity.
    split; [reflexivity|]. split; [reflexivity|]. split; [exact Hjson|].
    pose proof (fromCatch_fallback_serialization Tests.host Tests.trace Tests.depth
                  Tests.bigint_list 5 eq_refl eq_refl) as Hcall.
    rewrite Hjson in Hcall. exact Hcall.
Defined.

(** C6, on [new BaseError('Test error', { userId: 123, requestId: 'abc-123' })]:
    the six keys of the test, the cause being the sentinel. *)
Lemma toJSON_structured_witness :
  GetV Tests.merged (VObject 5) "metadata" = VObject 4 ∧
  ∃ props,
    BaseError.toJSON (VObject 5) Tests.merged =
      (Ok (VObject 6), Tests.merged ++ [Object (Some Object_prototype) OrdinaryKind props]) ∧
    assoc (KString "userId") props = Some (Property (VNumber 123) true) ∧
    assoc (KString "requestId") props = Some (Property (VString "abc-123") true) ∧
    assoc (KString "name") props = Some (Property (VString "BaseError") true) ∧
    assoc (KString "message") props = Some (Property (VString "Test error") true) ∧
    assoc (KString "stack") props = Some (Property (VString "Error: at <anonymous>") true) ∧
    assoc (KString "cause") props = Some (Property (VString "Unknown Cause") true) ∧
    assoc (KString "metadata") props = None.
Proof.
  split; [reflexivity|].
  destruct (toJSON_structured Tests.merged (VObject 5) 4 eq_refl) as (props & Hcall & Hq).
  exists props. split; [exact Hcall|].
  rewrite !Hq. repeat split; reflexivity.
Defined.

(** C6 as stated fails on the same error: the output has no key
    [stackTrace]; the stack trace is under [stack]. *)
Lemma toJSON_has_no_stackTrace :
  GetOwnProperty (obj_at (snd (BaseError.toJSON (VObject 5) Tests.merged)) 6)
    (KString "stackTrace") = None ∧
  GetOwnProperty (obj_at (snd (BaseError.toJSON (VObject 5) Tests.merged)) 6)
    (KString "stack") = Some (Property (VString "Error: at <anonymous>") true).
Proof. split; reflexivity. Qed.

(** C8, on [{ message: 'Custom error', code: 'ERR_123' }]. *)
Lemma fromCatch_metadata_witness :
  instanceof_BaseError Tests.custom_error (VObject 4) = false ∧
  Tests.fromCatch (VObject 4) Tests.custom_error = (Ok (VObject 8), Tests.custom_result) ∧
  ∃ m, GetV Tests.custom_result (VObject 8) "metadata" = VObject m ∧
    GetOwnProperty (obj_at Tests.custom_result m) (KString "code")
      = Some (Property (VString "ERR_123") true) ∧
    GetOwnProperty (obj_at Tests.custom_result m) (KString "message")
      = Some (Property (VString "Custom error") true) ∧
    GetOwnProperty (obj_at Tests.custom_result m) (KString "stack") = None.
Proof.
  split; [reflexivity|]. split; [reflexivity|].
  destruct (fromCatch_metadata Tests.host Tests.trace Tests.depth Tests.custom_error 4
              (VObject 8) Tests.custom_result eq_refl eq_refl)
    as (m & Hm & _ & _ & _ & Hq).
  exists m. split; [exact Hm|]. rewrite !Hq. repeat split; reflexivity.
Defined.

(** C10, on [{ name: 'TypeError', message: 'Type mismatch' }]. *)
Lemma fromCatch_name_witness :
  instanceof_BaseError Tests.named_error (VObject 4) = false ∧
  Tests.fromCatch (VObject 4) Tests.named_error = (Ok (VObject 8), Tests.named_result) ∧
  ∃ l, VObject 8 = VObject l ∧
    GetOwnProperty (obj_at Tests.named_result l) (KString "name")
      = Some (Property (VString "BaseError") true) ∧
    GetV Tests.named_result (VObject 8) "name" = VString "BaseError".
Proof.
  split; [reflexivity|]. split; [reflexivity|].
  apply (fromCatch_name Tests.host Tests.trace Tests.depth Tests.named_error (VObject 4));
    reflexivity.
Defined.

(** ** The tests of the package (js-errors.spec.ts) *)

(** 'should return formatted string with message and no metadata' *)
Example test_toString_no_metadata :
  BaseError.toString Tests.host (snd Tests.test_error) (VObject 5)
  = Ok "BaseError (message: Test error )".
Proof. reflexivity. Qed.

(** The same test on the earlier revision of [toString], which closes the
    parenthesis before the metadata: the test fails there. *)
Example test_toString_no_metadata_legacy :
  Legacy.toString Tests.host (snd Tests.test_error) (VObject 5)
  = Ok "BaseError (message: Test error) ".
Proof. reflexivity. Qed.

(** 'should use Unknown Cause when cause is not set' *)
Example test_toJSON_unknown_cause :
  GetV (snd (BaseError.toJSON (VObject 5) (snd Tests.test_error))) (VObject 6) "cause"
  = VString "Unknown Cause".
Proof. reflexivity. Qed.

(** [stack: this.stack ?? '']: on an engine that records no stack, the
    structured output carries the empty string. *)
Example toJSON_without_stack :
  let h := snd (BaseError.constructor Tests.host None (VString "Test error") VUndefined
                  initial_heap) in
  GetV (snd (BaseError.toJSON (VObject 5) h)) (VObject 6) "stack" = VString EmptyString.
Proof. reflexivity. Qed.

(** 'should return the same BaseError instance if error is already a
    BaseError', and normalizing the result of a normalization. *)
Lemma fromCatch_idempotent_witness :
  Tests.fromCatch (VObject 4) Tests.custom_error = (Ok (VObject 8), Tests.custom_result) ∧
  Tests.fromCatch (VObject 8) Tests.custom_result = (Ok (VObject 8), Tests.custom_result).
Proof.
  split; [reflexivity|].
  apply (fromCatch_idempotent Tests.host Tests.trace Tests.depth Tests.custom_error
           (VObject 4)).
  reflexivity.
Defined.

(** 'should convert an error object with message property' *)
Example test_fromCatch_message_property :
  Tests.fromCatch (VObject 4) Tests.custom_error = (Ok (VObject 8), Tests.custom_result) ∧
  GetV Tests.custom_result (VObject 8) "message" = VString "Custom error" ∧
  GetV Tests.custom_result (GetV Tests.custom_result (VObject 8) "metadata") "code"
  = VString "ERR_123".
Proof. repeat split; reflexivity. Qed.

(** 'should stringify non-Error objects without message property' *)
Example test_fromCatch_stringify :
  let s := "{" +:+ QuoteJSONString "status" +:+ ":500,"
               +:+ QuoteJSONString "details" +:+ ":" +:+ QuoteJSONString "Server error" +:+ "}" in
  Tests.fromCatch (VObject 4) Tests.server_error = (Ok (VObject 8), Tests.server_result) ∧
  GetV Tests.server_result (VObject 8) "message" = VString s ∧
  includes "status" s = true ∧ includes "500" s = true.
Proof. repeat split; reflexivity. Qed.

(** 'should throw when handling string / null / undefined / numeric /
    boolean errors (primitives not supported)' *)
Example test_fromCatch_primitives :
  Forall (λ p, Tests.fromCatch p initial_heap
               = (Throw (TypeError InOperandNotObject), initial_heap))
    [VString "This is a string error"; VNull; VUndefined; VNumber 404; VBoolean true].
Proof. repeat constructor. Qed.

(** 'should handle TypeError objects': the message is taken, the metadata is
    empty, and the name is that of the class. *)
Example test_fromCatch_TypeError :
  Tests.fromCatch (VObject 5) Tests.type_error = (Ok (VObject 7), Tests.type_error_result) ∧
  GetV Tests.type_error_result (VObject 7) "message" = VString "Type mismatch" ∧
  GetV Tests.type_error_result (VObject 7) "name" = VString "BaseError" ∧
  GetV Tests.type_error_result (VObject 7) "metadata" = VObject 6 ∧
  o_props (obj_at Tests.type_error_result 6) = [].
Proof. repeat split; reflexivity. Qed.

(** 'should handle errors with circular references gracefully' *)
Example test_fromCatch_circular_with_message :
  Tests.fromCatch (VObject 4) Tests.circular_with_message
    = (Ok (VObject 8), Tests.circular_result) ∧
  GetV Tests.circular_result (VObject 8) "message" = VString "Circular error" ∧
  GetV Tests.circular_result (GetV Tests.circular_result (VObject 8) "metadata") "self"
    = VObject 4.
Proof. repeat split; reflexivity. Qed.

(** 'should handle empty objects' *)
Example test_fromCatch_empty :
  Tests.fromCatch (VObject 4) Tests.empty = (Ok (VObject 6), Tests.empty_result) ∧
  GetV Tests.empty_result (VObject 6) "message" = VString "{}" ∧
  GetV Tests.empty_result (VObject 6) "metadata" = VObject 5 ∧
  o_props (obj_at Tests.empty_result 5) = [].
Proof. repeat split; reflexivity. Qed.

(** 'should handle array errors': the message is the text of the array, and
    the metadata has an entry for each index. *)
Example test_fromCatch_array :
  Tests.fromCatch (VObject 4) Tests.array_error = (Ok (VObject 8), Tests.array_result) ∧
  GetV Tests.array_result (VObject 8) "message"
    = VString ("[" +:+ QuoteJSONString "error" +:+ "," +:+ QuoteJSONString "details" +:+ "]") ∧
  GetV Tests.array_result (GetV Tests.array_result (VObject 8) "metadata") "0"
    = VString "error" ∧
  GetV Tests.array_result (GetV Tests.array_result (VObject 8) "metadata") "1"
    = VString "details" ∧
  GetV Tests.array_result (GetV Tests.array_result (VObject 8) "metadata") "length"
    = VUndefined.
Proof. repeat split; reflexivity. Qed.

(** * Further properties of the class *)

(** ** What [fromCatch] returns *)

Section Returned.

Variable ObjectToString : heap → loc → exn + string.
Variable trace : option string.
Variable depth : nat.

Local Abbreviation constructor := (BaseError.constructor ObjectToString trace).
Local Abbreviation fromCatch := (BaseError.fromCatch ObjectToString trace depth).
Local Abbreviation toString := (BaseError.toString ObjectToString).

(** When the argument is not an instance and the call returns, the result
    is an object that did not exist before the call: it is none of the
    objects of the caller, the argument included ('should create a new
    BaseError instance'). *)
Theorem fromCatch_result_is_new (h : heap) (v r : value) (h' : heap) :
  instanceof_BaseError h v = false →
  fromCatch v h = (Ok r, h') →
  ∃ n, r = VObject n ∧ length h ≤ n < length h' ∧ h !! n = None.
Proof.
  intros Hinst Hcall.
  destruct (fromCatch_Ok_inv ObjectToString trace depth h v r h' Hinst Hcall)
    as (l & m & new & ps & mv & msg & _ & _ & _ & _ & _ & _ & -> & ->).
  eexists. split; [done|]. rewrite !length_app. simpl. split; [lia|].
  apply lookup_ge_None_2. lia.
Qed.

(** An error made by the constructor goes through [fromCatch] as it is. *)
Theorem fromCatch_after_constructor (h : heap) (message metadata r : value) (h' : heap) :
  constructor message metadata h = (Ok r, h') →
  fromCatch r h' = (Ok r, h').
Proof.
  intros Hnew. apply fromCatch_instance. by eapply constructor_instanceof.
Qed.

(** An instance of a class that extends BaseError, as the README's
    AuthorizationError, is returned as it is, with the name of its class:
    the prototype of the subclass has the prototype of BaseError for
    prototype. *)
Theorem fromCatch_subclass_instance (h : heap) (l p : loc) :
  o_proto (obj_at h l) = Some p →
  o_proto (obj_at h p) = Some BaseError_prototype →
  (2 ≤ length h)%nat →
  fromCatch (VObject l) h = (Ok (VObject l), h).
Proof.
  intros Hl Hp Hlen. apply fromCatch_instance. simpl.
  destruct (length h) as [|[|n]]; [lia|lia|]. simpl. rewrite Hl.
  case_decide; [done|]. rewrite Hp. by rewrite decide_True.
Qed.

(** ** The text of an error *)

(** [new BaseError(s).toString()] is ["BaseError (message: s )"] for every
    string [s]: the metadata defaults to a new empty object, and the
    rendering keeps the space that precedes the entries. *)
Theorem toString_new_without_metadata (h : heap) (s : string) :
  ∃ r h',
    constructor (VString s) VUndefined h = (Ok r, h') ∧
    GetV h' r "metadata" = VObject (length h) ∧
    h !! length h = None ∧
    o_props (obj_at h' (length h)) = [] ∧
    toString h' r = Ok ("BaseError (message: " +:+ s +:+ " )").
Proof.
  set (o0 := Object (Some Object_prototype) OrdinaryKind []).
  set (inst := instance trace (Some s) (VObject (length h))).
  exists (VObject (length (h ++ [o0]))), ((h ++ [o0]) ++ [inst]).
  assert (obj_at ((h ++ [o0]) ++ [inst]) (length h) = o0) as Hmeta.
  { rewrite obj_at_app_l by (rewrite length_app; simpl; lia). apply obj_at_app_new. }
  assert (GetV ((h ++ [o0]) ++ [inst]) (VObject (length (h ++ [o0]))) "metadata"
          = VObject (length h)) as Hmd.
  { cbn [GetV].
    apply (Get_new_instance (h ++ [o0]) inst _ _ (instance_metadata _ _ _)). }
  split; [|split; [exact Hmd|split; [by apply lookup_ge_None_2|split]]].
  - reflexivity.
  - by rewrite Hmeta.
  - unfold BaseError.toString. rewrite Hmd. simpl Object_entries. rewrite Hmeta.
    cbn [GetV].
    rewrite (Get_new_instance (h ++ [o0]) inst _ _ (instance_name _ _ _)),
            (Get_new_instance (h ++ [o0]) inst _ _ (instance_message _ _ _)).
    reflexivity.
Qed.


(** An enumerable metadata entry whose value is a symbol leaves the error
    without text: the template literal cannot convert the symbol, and
    [toString] throws. *)
Theorem toString_symbol_entry_throws (h : heap) (this : value) (m : loc)
    (k : string) (n : nat) :
  GetV h this "metadata" = VObject m →
  (k, VSymbol n) ∈ EnumerableOwnProperties (obj_at h m) →
  ∃ e, toString h this = Throw e.
Proof.
  intros Hmd Hin. unfold BaseError.toString. rewrite Hmd. simpl Object_entries.
  unfold Array_from. cbn [mbind result_bind].
  destruct (mapM_throws
    (λ kv, v ← ToString ObjectToString h (snd kv); Ok (fst kv +:+ ":" +:+ v))
    (EnumerableOwnProperties (obj_at h m)) (k, VSymbol n)) as [e He]; [done|done| |].
  { intros kv _. pose proof (ToString_terminates ObjectToString h (snd kv)).
    destruct (ToString ObjectToString h (snd kv)); simpl; congruence. }
  rewrite He. by exists e.
Qed.

(** The two revisions of [toString] never agree: on every error they throw
    the same exception or return different texts. *)
Theorem toString_revisions_differ (h : heap) (this : value) :
  match toString h this, Legacy.toString ObjectToString h this with
  | Ok s, Ok s' => s ≠ s'
  | Throw e, Throw e' => e = e'
  | OutOfFuel, OutOfFuel => True
  | _, _ => False
  end.
Proof.
  unfold BaseError.toString, Legacy.toString.
  destruct (Object_entries h (GetV h this "metadata")) as [entries| |]; simpl; [|done|done].
  destruct (mapM _ (Array_from entries)) as [parts| |]; simpl; [|done|done].
  destruct (ToString ObjectToString h (GetV h this "name")) as [name| |]; simpl;
    [|done|done].
  destruct (ToString ObjectToString h (GetV h this "message")) as [message| |]; simpl;
    [|done|done].
  intros Heq.
  apply String.app_inj, (String.app_inj " (message: "), String.app_inj in Heq.
  discriminate.
Qed.

End Returned.

(** ** The order in which an object lists its keys *)

Lemma insert_by_index_least (x : N * string) (xs : list (N * string)) :
  Forall (λ y, (fst x ≤ fst y)%N) xs → insert_by_index x xs = x :: xs.
Proof.
  destruct 1 as [|y ys Hy _]; [done|]. simpl.
  by rewrite (proj2 (N.leb_le _ _) Hy).
Qed.

Lemma insert_by_index_sorted (x : N * string) (xs : list (N * string)) :
  StronglySorted (λ a b, (fst a ≤ fst b)%N) xs →
  StronglySorted (λ a b, (fst a ≤ fst b)%N) (insert_by_index x xs).
Proof.
  induction 1 as [|y ys Hsorted IH Hy]; simpl.
  - by repeat constructor.
  - destruct (fst x <=? fst y)%N eqn:Hle.
    + apply N.leb_le in Hle. constructor; [by constructor|].
      constructor; [done|]. eapply Forall_impl; [exact Hy|]. simpl. lia.
    + apply N.leb_gt in Hle. constructor; [done|].
      apply Forall_forall. intros z Hz.
      rewrite elem_of_insert_by_index in Hz. destruct Hz as [->|Hz]; [lia|].
      by eapply Forall_forall in Hy.
Qed.

Lemma sort_by_index_sorted (xs : list (N * string)) :
  StronglySorted (λ a b, (fst a ≤ fst b)%N) (sort_by_index xs).
Proof.
  unfold sort_by_index. induction xs as [|x xs IH]; simpl; [constructor|].
  by apply insert_by_index_sorted.
Qed.

Lemma insert_by_index_Permutation (x : N * string) (xs : list (N * string)) :
  insert_by_index x xs ≡ₚ x :: xs.
Proof.
  induction xs as [|y ys IH]; simpl; [done|].
  destruct (fst x <=? fst y)%N; [done|]. rewrite IH. apply Permutation_swap.
Qed.

Lemma sort_by_index_Permutation (xs : list (N * string)) :
  sort_by_index xs ≡ₚ xs.
Proof.
  unfold sort_by_index. induction xs as [|x xs IH]; simpl; [done|].
  by rewrite insert_by_index_Permutation, IH.
Qed.

Lemma elem_of_index_entries (n : N) (s : string) (ks : list string) :
  (n, s) ∈ omap (λ s, (λ n, (n, s)) <$> array_index s) ks ↔
  s ∈ ks ∧ array_index s = Some n.
Proof.
  rewrite list_elem_of_omap. split.
  - intros (t & Ht & Heq). destruct (array_index t) eqn:Hidx; simplify_eq/=. done.
  - intros [Hs Hidx]. exists s. by rewrite Hidx.
Qed.

Lemma index_entries_keys (ks : list string) :
  (omap (λ s, (λ n, (n, s)) <$> array_index s) ks).*2
  = filter (λ s, is_index s = true) ks.
Proof.
  induction ks as [|s ks IH]; [done|]. cbn [omap list_omap].
  destruct (array_index s) as [n|] eqn:Hidx; csimpl.
  - rewrite filter_cons_True; [by rewrite IH|].
    unfold is_index. rewrite Hidx. by apply bool_decide_eq_true.
  - rewrite filter_cons_False; [done|].
    unfold is_index. rewrite Hidx. intros [? ?]%bool_decide_eq_true. done.
Qed.

Lemma sort_by_index_cons (x : N * string) (xs : list (N * string)) :
  sort_by_index (x :: xs) = insert_by_index x (sort_by_index xs).
Proof. reflexivity. Qed.

(** Keys that were inserted in the order of enumeration are listed as they
    were inserted. *)
Lemma ordered_keys_listed (ks : list string) :
  StronglySorted before ks →
  (sort_by_index (omap (λ s, (λ n, (n, s)) <$> array_index s) ks)).*2
  ++ filter (λ s, is_index s = false) ks = ks.
Proof.
  induction 1 as [|s ks Hsorted IH Hs].
  { done. }
  destruct (array_index s) as [n|] eqn:Hidx.
  - assert (omap (λ s, (λ n, (n, s)) <$> array_index s) (s :: ks)
            = (n, s) :: omap (λ s, (λ n, (n, s)) <$> array_index s) ks) as ->.
    { cbn [omap list_omap]. by rewrite Hidx. }
    rewrite sort_by_index_cons, insert_by_index_least.
    + rewrite filter_cons_False.
      * rewrite fmap_cons, <- app_comm_cons. cbn [snd]. by rewrite IH.
      * unfold is_index. rewrite Hidx. intros Hf%bool_decide_eq_false. by apply Hf.
    + apply Forall_forall. intros [n' s'] Hin.
      rewrite elem_of_sort_by_index, elem_of_index_entries in Hin.
      destruct Hin as [Hin Hidx'].
      eapply Forall_forall in Hs; [|exact Hin].
      unfold before in Hs. by rewrite Hidx, Hidx' in Hs.
  - assert (Forall (λ t, array_index t = None) (s :: ks)) as Hnone.
    { constructor; [done|]. eapply Forall_impl; [exact Hs|].
      intros t. unfold before. rewrite Hidx. by destruct (array_index t). }
    by rewrite (no_index_sorted _ Hnone), (no_index_filter _ Hnone).
Qed.

Lemma no_index_ordered (ks : list string) :
  Forall (λ s, array_index s = None) ks → StronglySorted before ks.
Proof.
  induction 1 as [|s ks Hs Hks IH]; constructor; [done|].
  eapply Forall_impl; [exact Hks|].
  intros t Ht. unfold before. by rewrite Hs, Ht.
Qed.

Lemma sorted_entries_keys (xs : list (N * string)) :
  Forall (λ x, array_index (snd x) = Some (fst x)) xs →
  StronglySorted (λ a b, (fst a ≤ fst b)%N) xs →
  StronglySorted before xs.*2.
Proof.
  intros Hidx Hsorted. induction Hsorted as [|x xs Hsorted IH Hx]; [constructor|].
  apply Forall_cons in Hidx as [Hxi Hidx]. simpl. constructor; [by apply IH|].
  apply Forall_fmap, Forall_forall. intros y Hy. simpl.
  eapply Forall_forall in Hx; [|exact Hy]. eapply Forall_forall in Hidx; [|exact Hy].
  unfold before. by rewrite Hxi, Hidx.
Qed.

(** An object lists its own string keys in the order of enumeration. *)
Lemma OwnStringKeys_ordered (o : object) : StronglySorted before (OwnStringKeys o).
Proof.
  unfold OwnStringKeys. apply StronglySorted_app_2.
  - intros s t Hs Ht.
    apply list_elem_of_fmap in Hs as ([n s'] & -> & Hs).
    rewrite elem_of_sort_by_index, elem_of_index_entries in Hs.
    destruct Hs as [_ Hidx].
    assert (array_index t = None) as Hnone.
    { apply elem_of_app in Ht as [Ht|Ht].
      - destruct (o_kind o); [by apply not_elem_of_nil in Ht|].
        by apply list_elem_of_singleton in Ht as ->.
      - apply list_elem_of_filter in Ht as [Ht _]. unfold is_index in Ht.
        apply bool_decide_eq_false in Ht. destruct (array_index t); [|done].
        destruct Ht. eauto. }
    unfold before. simpl. by rewrite Hidx, Hnone.
  - apply sorted_entries_keys; [|apply sort_by_index_sorted].
    apply Forall_forall. intros [n s] Hin.
    rewrite elem_of_sort_by_index, elem_of_index_entries in Hin.
    by destruct Hin as [_ Hin].
  - apply no_index_ordered, Forall_app. split.
    + destruct (o_kind o); by repeat constructor.
    + apply Forall_forall. intros t [Ht _]%list_elem_of_filter.
      unfold is_index in Ht. apply bool_decide_eq_false in Ht.
      destruct (array_index t); [|done]. destruct Ht. eauto.
Qed.

Lemma sublist_Forall {A} (P : A → Prop) (l1 l2 : list A) :
  l1 `sublist_of` l2 → Forall P l2 → Forall P l1.
Proof.
  induction 1 as [|x l1 l2 _ IH|x l1 l2 _ IH]; intros Hall; [done| |].
  - apply Forall_cons in Hall as [? ?]. constructor; auto.
  - apply Forall_cons in Hall as [? ?]. auto.
Qed.

Lemma StronglySorted_sublist {A} (R : relation A) (l1 l2 : list A) :
  l1 `sublist_of` l2 → StronglySorted R l2 → StronglySorted R l1.
Proof.
  induction 1 as [|x l1 l2 Hsub IH|x l1 l2 _ IH]; intros Hsorted; [done| |].
  - apply StronglySorted_inv in Hsorted as [Hsorted Hx].
    constructor; [auto|]. by eapply sublist_Forall.
  - apply StronglySorted_inv in Hsorted as [Hsorted _]. auto.
Qed.

Lemma enumerable_own_keys_sublist {K} (inj : K → key) (o : object) (ks : list K) :
  (enumerable_own inj o ks).*1 `sublist_of` ks.
Proof.
  unfold enumerable_own. induction ks as [|k ks IH]; [constructor|].
  cbn [omap list_omap]. destruct (enumerable_value o (inj k)); csimpl.
  - by apply sublist_skip.
  - by apply sublist_cons.
Qed.

Lemma elem_of_string_keys (s : string) ps :
  s ∈ string_keys ps → KString s ∈ ps.*1.
Proof.
  unfold string_keys. intros (kp & Hin & Hkp)%list_elem_of_omap.
  apply list_elem_of_fmap. exists kp. split; [|done].
  destruct kp as [[t|n] p]; simplify_eq/=. done.
Qed.

Lemma string_keys_NoDup ps : NoDup ps.*1 → NoDup (string_keys ps).
Proof.
  induction ps as [|[k p] ps IH]; [constructor|].
  intros [Hk Hnd]%list.NoDup_cons. unfold string_keys. cbn [omap list_omap fst].
  destruct k as [s|n]; [|by apply IH].
  apply NoDup_cons_2; [|by apply IH].
  intros Hin. by apply Hk, elem_of_string_keys.
Qed.

(** [Object.entries] gives each key once. *)
Lemma entries_keys_NoDup (o : object) :
  unique_keys o → NoDup (EnumerableOwnProperties o).*1.
Proof.
  intros Hunique. apply string_keys_NoDup in Hunique.
  unfold EnumerableOwnProperties, OwnStringKeys, enumerable_own.
  rewrite !omap_app, !fmap_app.
  assert (omap (λ k, pair k <$> enumerable_value o (KString k))
            match o_kind o with ArrayKind _ => ["length"] | OrdinaryKind => [] end
          = []) as ->.
  { destruct (o_kind o) eqn:Hkind; [done|]. cbn [omap list_omap].
    unfold enumerable_value, GetOwnProperty. rewrite Hkind. by rewrite decide_True. }
  rewrite app_nil_l.
  eapply sublist_NoDup;
    [|apply sublist_app; apply (enumerable_own_keys_sublist KString o)].
  apply NoDup_app. split; [|split].
  - rewrite sort_by_index_Permutation, index_entries_keys. by apply NoDup_filter.
  - intros s Hs Hs'.
    apply list_elem_of_fmap in Hs as ([n s'] & -> & Hs).
    rewrite elem_of_sort_by_index, elem_of_index_entries in Hs. destruct Hs as [_ Hidx].
    apply list_elem_of_filter in Hs' as [Hs' _]. unfold is_index in Hs'.
    apply bool_decide_eq_false in Hs'. apply Hs'. simpl. eauto.
  - by apply NoDup_filter.
Qed.

(** [Object.entries] gives the keys in the order of enumeration. *)
Lemma entries_keys_ordered (o : object) :
  StronglySorted before (EnumerableOwnProperties o).*1.
Proof.
  eapply StronglySorted_sublist; [|apply OwnStringKeys_ordered].
  apply enumerable_own_keys_sublist.
Qed.

(** On an ordinary object whose keys were inserted in the order of
    enumeration, [Object.entries] follows the insertion. *)
Lemma EnumerableOwnProperties_ordered (o : object) :
  o_kind o = OrdinaryKind → unique_keys o →
  StronglySorted before (string_keys (o_props o)) →
  EnumerableOwnProperties o = insertion_order_entries o.
Proof.
  intros Hkind Hunique Hordered.
  unfold EnumerableOwnProperties, enumerable_own, OwnStringKeys.
  rewrite Hkind, app_nil_l, (ordered_keys_listed _ Hordered).
  unfold enumerable_value, GetOwnProperty. rewrite Hkind.
  rewrite (enumerable_by_lookup (λ k, assoc k (o_props o))); [done|].
  intros k p Hin. by apply assoc_unique.
Qed.

(** ** The entries of an object and its insertion order *)

Lemma own_property_lookup (o : object) (k : key) (p : property) :
  language_object o → (k, p) ∈ o_props o → GetOwnProperty o k = Some p.
Proof.
  intros [Hunique Hlength] Hin. unfold GetOwnProperty.
  destruct (o_kind o) as [|len] eqn:Hkind; [by apply assoc_unique|].
  destruct Hlength as [?|Hlength]; [done|].
  rewrite decide_False; [by apply assoc_unique|].
  intros ->. apply Hlength, list_elem_of_fmap. by exists (KString "length", p).
Qed.

(** Looked up key by key in insertion order, the enumerable properties are
    the entries in insertion order. *)
Lemma entries_by_insertion (o : object) :
  language_object o →
  enumerable_own KString o (string_keys (o_props o)) = insertion_order_entries o.
Proof.
  intros Hlang. unfold enumerable_own, enumerable_value.
  rewrite (enumerable_by_lookup (GetOwnProperty o)); [done|].
  intros k p Hin. by apply own_property_lookup.
Qed.

(** [Object.entries]: the entries under the array indices, sorted, then the
    entries under the other keys. *)
Lemma EnumerableOwnProperties_split (o : object) :
  EnumerableOwnProperties o
  = enumerable_own KString o
      (sort_by_index (omap (λ s, (λ n, (n, s)) <$> array_index s)
                           (string_keys (o_props o)))).*2
    ++ enumerable_own KString o
         (filter (λ s, is_index s = false) (string_keys (o_props o))).
Proof.
  unfold EnumerableOwnProperties, OwnStringKeys, enumerable_own.
  rewrite !omap_app.
  assert (omap (λ k, pair k <$> enumerable_value o (KString k))
            match o_kind o with ArrayKind _ => ["length"] | OrdinaryKind => [] end
          = []) as ->; [|done].
  destruct (o_kind o) eqn:Hkind; [done|]. cbn [omap list_omap].
  unfold enumerable_value, GetOwnProperty. rewrite Hkind. by rewrite decide_True.
Qed.

Lemma keys_partition (ks : list string) :
  filter (λ s, is_index s = true) ks ++ filter (λ s, is_index s = false) ks ≡ₚ ks.
Proof.
  induction ks as [|s ks IH]; [done|].
  destruct (is_index s) eqn:Hs.
  - rewrite filter_cons_True, filter_cons_False by (by rewrite Hs). simpl. by rewrite IH.
  - rewrite filter_cons_False, filter_cons_True by (by rewrite Hs).
    by rewrite <- Permutation_middle, IH.
Qed.

Lemma is_index_false (s : string) : is_index s = false ↔ array_index s = None.
Proof.
  unfold is_index. rewrite bool_decide_eq_false. destruct (array_index s); split.
  - intros Hs. destruct Hs. eauto.
  - done.
  - done.
  - by intros _ [? ?].
Qed.

(** [Object.entries] gives the enumerable string-keyed properties, each
    once. *)
Lemma EnumerableOwnProperties_Permutation (o : object) :
  language_object o → EnumerableOwnProperties o ≡ₚ insertion_order_entries o.
Proof.
  intros Hlang. rewrite EnumerableOwnProperties_split, <- (entries_by_insertion o Hlang).
  unfold enumerable_own. rewrite <- omap_app. apply omap_Permutation.
  by rewrite sort_by_index_Permutation, index_entries_keys, keys_partition.
Qed.

Lemma filter_enumerable_own (P : string → Prop) `{∀ s, Decision (P s)}
    (o : object) (ks : list string) :
  filter (λ kv, P (fst kv)) (enumerable_own KString o ks)
  = enumerable_own KString o (filter P ks).
Proof.
  unfold enumerable_own. induction ks as [|k ks IH]; [done|].
  destruct (decide (P k)) as [Hk|Hk].
  - rewrite (filter_cons_True P) by done. cbn [omap list_omap].
    destruct (enumerable_value o (KString k)); csimpl; [|exact IH].
    rewrite filter_cons_True by done. f_equal. exact IH.
  - rewrite (filter_cons_False P) by done. cbn [omap list_omap].
    destruct (enumerable_value o (KString k)); csimpl; [|exact IH].
    rewrite filter_cons_False by done. exact IH.
Qed.

Lemma filter_none {A} (P : A → Prop) `{∀ x, Decision (P x)} (l : list A) :
  Forall (λ x, ¬ P x) l → filter P l = [].
Proof.
  induction 1 as [|x l Hx _ IH]; [done|]. by rewrite filter_cons_False.
Qed.

Lemma filter_others (ks : list string) :
  filter (λ s, is_index s = false) ks = filter (λ s, array_index s = None) ks.
Proof. apply list_filter_iff. intros s. apply is_index_false. Qed.

(** Among the entries [Object.entries] gives, those whose key is no array
    index are in insertion order. *)
Lemma EnumerableOwnProperties_others (o : object) :
  language_object o →
  filter (λ kv, array_index (fst kv) = None) (EnumerableOwnProperties o)
  = filter (λ kv, array_index (fst kv) = None) (insertion_order_entries o).
Proof.
  intros Hlang.
  rewrite EnumerableOwnProperties_split, <- (entries_by_insertion o Hlang).
  rewrite filter_app.
  pose proof (filter_enumerable_own (λ s, array_index s = None) o) as Hfilter.
  cbv beta in Hfilter. rewrite !Hfilter.
  rewrite filter_none, app_nil_l.
  - rewrite filter_others. by rewrite list_filter_filter_r.
  - apply Forall_forall. intros s Hs.
    apply list_elem_of_fmap in Hs as ([n s'] & -> & Hs).
    rewrite elem_of_sort_by_index, elem_of_index_entries in Hs.
    destruct Hs as [_ Hidx]. simpl. by rewrite Hidx.
Qed.

(** When the keys were inserted in the order of enumeration,
    [Object.entries] follows the insertion. *)
Lemma EnumerableOwnProperties_inserted_in_order (o : object) :
  language_object o → StronglySorted before (string_keys (o_props o)) →
  EnumerableOwnProperties o = insertion_order_entries o.
Proof.
  intros Hlang Hordered.
  rewrite EnumerableOwnProperties_split, <- (entries_by_insertion o Hlang).
  unfold enumerable_own. by rewrite <- omap_app, (ordered_keys_listed _ Hordered).
Qed.

(** So it does when no key is an array index. *)
Lemma EnumerableOwnProperties_no_index (o : object) :
  language_object o → no_index_keys o →
  EnumerableOwnProperties o = insertion_order_entries o.
Proof.
  intros Hlang Hnoindex.
  by apply EnumerableOwnProperties_inserted_in_order, no_index_ordered.
Qed.

(** ** The line of text *)

Lemma line_breaks_app (s t : string) :
  line_breaks (s +:+ t) = line_breaks s + line_breaks t.
Proof.
  induction s as [|c s IH]; [done|].
  change (String c s +:+ t) with (String c (s +:+ t)).
  cbn [line_breaks]. rewrite IH. lia.
Qed.

Lemma line_breaks_join (parts : list string) :
  line_breaks (join " " parts) = sum_list (line_breaks <$> parts).
Proof.
  unfold join. induction parts as [|s parts IH]; [done|].
  destruct parts as [|t parts]; [simpl; lia|].
  change (String.concat " " (s :: t :: parts))
    with (s +:+ " " +:+ String.concat " " (t :: parts)).
  rewrite !line_breaks_app, IH. simpl. lia.
Qed.

(** The rendering adds no line break to those of its parts. *)
Lemma line_breaks_rendering (name message : string) (parts : list string) :
  line_breaks (rendering name message parts)
  = line_breaks name + line_breaks message + sum_list (line_breaks <$> parts).
Proof.
  unfold rendering. rewrite !line_breaks_app, line_breaks_join. simpl. lia.
Qed.

Section Rendering.

Variable ObjectToString : heap → loc → exn + string.

Local Abbreviation toString := (BaseError.toString ObjectToString).

(** C7 (amended) — On an error whose metadata is an object, [toString]
    converts to text the value of every enumerable string-keyed entry of
    the metadata, then the name and the message.  The entries are taken
    in the order of the language: those whose key is an array index
    first, by ascending index, then the others in insertion order, hence
    all in insertion order when no key is an array index, or when the keys
    were inserted in that order.  When every
    conversion returns, [toString] returns the line
    ["<name> (message: <message> <key1>:<value1> <key2>:<value2> ...)"],
    the entries separated by spaces inside the parenthesis, which has no
    line break but those of the name, the message, the keys and the
    converted values; when a conversion throws, [toString] throws. *)
Theorem toString_renders (h : heap) (this : value) (m : loc) :
  GetV h this "metadata" = VObject m →
  language_object (obj_at h m) →
  ∃ entries,
    entries ≡ₚ insertion_order_entries (obj_at h m) ∧
    StronglySorted before entries.*1 ∧
    filter (λ kv, array_index (fst kv) = None) entries
      = filter (λ kv, array_index (fst kv) = None)
          (insertion_order_entries (obj_at h m)) ∧
    (no_index_keys (obj_at h m) → entries = insertion_order_entries (obj_at h m)) ∧
    (StronglySorted before (string_keys (o_props (obj_at h m))) →
     entries = insertion_order_entries (obj_at h m)) ∧
    toString h this =
      (parts ← mapM (λ kv, v ← ToString ObjectToString h (snd kv);
                           Ok (fst kv +:+ ":" +:+ v)) entries;
       name ← ToString ObjectToString h (GetV h this "name");
       message ← ToString ObjectToString h (GetV h this "message");
       Ok (rendering name message parts)) ∧
    ∀ parts name message,
      mapM (λ kv, v ← ToString ObjectToString h (snd kv);
                  Ok (fst kv +:+ ":" +:+ v)) entries = Ok parts →
      ToString ObjectToString h (GetV h this "name") = Ok name →
      ToString ObjectToString h (GetV h this "message") = Ok message →
      toString h this = Ok (rendering name message parts) ∧
      line_breaks (rendering name message parts)
      = line_breaks name + line_breaks message + sum_list (line_breaks <$> parts).
Proof.
  intros Hmd Hlang. exists (EnumerableOwnProperties (obj_at h m)).
  assert (toString h this =
    (parts ← mapM (λ kv, v ← ToString ObjectToString h (snd kv);
                         Ok (fst kv +:+ ":" +:+ v))
                  (EnumerableOwnProperties (obj_at h m));
     name ← ToString ObjectToString h (GetV h this "name");
     message ← ToString ObjectToString h (GetV h this "message");
     Ok (rendering name message parts))) as Htext.
  { unfold BaseError.toString. by rewrite Hmd. }
  split; [by apply EnumerableOwnProperties_Permutation|].
  split; [apply entries_keys_ordered|].
  split; [by apply EnumerableOwnProperties_others|].
  split; [by apply EnumerableOwnProperties_no_index|].
  split; [by apply EnumerableOwnProperties_inserted_in_order|].
  split; [exact Htext|].
  intros parts name message Hparts Hname Hmessage.
  split; [|apply line_breaks_rendering].
  rewrite Htext, Hparts. cbn [mbind result_bind]. by rewrite Hname, Hmessage.
Qed.

End Rendering.

(** C7 as stated fails four times over.  On
    [new BaseError('Test error', { b: 1, 0: 2 })], [b] was inserted first
    and is rendered last.  On [new BaseError('Test error', { tag: Symbol() })]
    and on an error whose metadata was set to [null], no line is returned:
    [toString] throws.  On an error whose message has two lines, so has its
    text. *)
Lemma toString_not_as_claimed :
  (BaseError.toString Tests.host Tests.indexed (VObject 5)
     = Ok "BaseError (message: Test error 0:2 b:1)" ∧
   insertion_order_entries (obj_at Tests.indexed 4) = [("b", VNumber 1); ("0", VNumber 2)] ∧
   toText Tests.host Tests.indexed (VObject 5)
     = Ok "BaseError (message: Test error b:1 0:2)") ∧
  (GetV Tests.symbol_entry (VObject 5) "metadata" = VObject 4 ∧
   language_object (obj_at Tests.symbol_entry 4) ∧
   BaseError.toString Tests.host Tests.symbol_entry (VObject 5)
     = Throw (TypeError SymbolToString)) ∧
  BaseError.toString Tests.host Tests.null_metadata (VObject 4)
    = Throw (TypeError NullishToObject) ∧
  (∃ text,
     BaseError.toString Tests.host Tests.two_lines (VObject 5) = Ok text ∧
     line_breaks text = 1).
Proof.
  split; [repeat split; reflexivity|].
  split; [|split; [reflexivity|]].
  - split; [reflexivity|]. split; [|reflexivity].
    split; [|by left]. apply (bool_decide_unpack _). vm_compute. exact I.
  - eexists. split; reflexivity.
Qed.

(** C7 (amended), on the example of the documentation, on
    [new BaseError('Test error')] and on an error whose metadata is the
    array [['x', 'y']]. *)
Lemma toString_renders_witness :
  (GetV Tests.database (VObject 5) "metadata" = VObject 4 ∧
   language_object (obj_at Tests.database 4) ∧
   BaseError.toString Tests.host Tests.database (VObject 5)
   = Ok "BaseError (message: Database connection failed host:localhost port:5432 retries:3)" ∧
   line_breaks
     "BaseError (message: Database connection failed host:localhost port:5432 retries:3)"
   = 0) ∧
  (GetV (snd Tests.test_error) (VObject 5) "metadata" = VObject 4 ∧
   language_object (obj_at (snd Tests.test_error) 4) ∧
   BaseError.toString Tests.host (snd Tests.test_error) (VObject 5)
   = Ok "BaseError (message: Test error )") ∧
  (GetV Tests.array_metadata (VObject 5) "metadata" = VObject 4 ∧
   language_object (obj_at Tests.array_metadata 4) ∧
   BaseError.toString Tests.host Tests.array_metadata (VObject 5)
   = Ok "BaseError (message: Test error 0:x 1:y)").
Proof.
  assert (language_object (obj_at Tests.database 4)) as Hdatabase.
  { split; [|by left]. apply (bool_decide_unpack _). vm_compute. exact I. }
  assert (no_index_keys (obj_at Tests.database 4)) as Hnoindex.
  { apply (bool_decide_unpack _). vm_compute. exact I. }
  assert (language_object (obj_at (snd Tests.test_error) 4)) as Hempty.
  { split; [|by left]. apply (bool_decide_unpack _). vm_compute. exact I. }
  assert (no_index_keys (obj_at (snd Tests.test_error) 4)) as Hnoindex'.
  { apply (bool_decide_unpack _). vm_compute. exact I. }
  assert (language_object (obj_at Tests.array_metadata 4)) as Harray.
  { split; [apply (bool_decide_unpack _); vm_compute; exact I|].
    right. apply (bool_decide_unpack _). vm_compute. exact I. }
  assert (StronglySorted before (string_keys (o_props (obj_at Tests.array_metadata 4))))
    as Hordered.
  { apply (bool_decide_unpack _). vm_compute. exact I. }
  split; [|split].
  - split; [reflexivity|]. split; [exact Hdatabase|].
    destruct (toString_renders Tests.host Tests.database (VObject 5) 4 eq_refl Hdatabase)
      as (entries & _ & _ & _ & Hentries & _ & _ & Hreturns).
    rewrite (Hentries Hnoindex) in Hreturns.
    exact (Hreturns ["host:localhost"; "port:5432"; "retries:3"]
             "BaseError" "Database connection failed" eq_refl eq_refl eq_refl).
  - split; [reflexivity|]. split; [exact Hempty|].
    destruct (toString_renders Tests.host (snd Tests.test_error) (VObject 5) 4 eq_refl Hempty)
      as (entries & _ & _ & _ & Hentries & _ & _ & Hreturns).
    rewrite (Hentries Hnoindex') in Hreturns.
    exact (proj1 (Hreturns [] "BaseError" "Test error" eq_refl eq_refl eq_refl)).
  - split; [reflexivity|]. split; [exact Harray|].
    destruct (toString_renders Tests.host Tests.array_metadata (VObject 5) 4 eq_refl Harray)
      as (entries & _ & _ & _ & _ & Hentries & _ & Hreturns).
    rewrite (Hentries Hordered) in Hreturns.
    exact (proj1 (Hreturns ["0:x"; "1:y"] "BaseError" "Test error"
                    eq_refl eq_refl eq_refl)).
Defined.

(** ** Object literals *)

Lemma props_of_keys (es : list (string * value)) :
  (props_of es).*1 = KString <$> es.*1.
Proof. unfold props_of. by rewrite <- !list_fmap_compose. Qed.

Lemma props_of_string_keys (es : list (string * value)) :
  string_keys (props_of es) = es.*1.
Proof. induction es as [|[k v] es IH]; [done|]. unfold string_keys in *. csimpl. by rewrite IH. Qed.

Lemma props_of_symbol_keys (es : list (string * value)) :
  symbol_keys (props_of es) = [].
Proof. induction es as [|[k v] es IH]; [done|]. unfold symbol_keys in *. by csimpl. Qed.

Lemma props_of_entries p kind (es : list (string * value)) :
  insertion_order_entries (Object p kind (props_of es)) = es.
Proof.
  unfold insertion_order_entries. simpl.
  induction es as [|[k v] es IH]; [done|]. csimpl. by rewrite IH.
Qed.

Lemma props_of_app (es es' : list (string * value)) :
  props_of (es ++ es') = props_of es ++ props_of es'.
Proof. apply fmap_app. Qed.

Lemma props_of_unique p kind (es : list (string * value)) :
  NoDup es.*1 → unique_keys (Object p kind (props_of es)).
Proof.
  intros Hnd. unfold unique_keys. simpl. rewrite props_of_keys.
  apply NoDup_fmap_2; [|done]. by intros ?? [=].
Qed.

(** An object literal whose entries are in the order of enumeration lists
    them as they are written. *)
Lemma enumerate_props_of p (es : list (string * value)) :
  NoDup es.*1 → StronglySorted before es.*1 →
  EnumerableOwnProperties (Object p OrdinaryKind (props_of es)) = es.
Proof.
  intros Hnd Hordered.
  rewrite EnumerableOwnProperties_ordered.
  - apply props_of_entries.
  - done.
  - by apply props_of_unique.
  - simpl. by rewrite props_of_string_keys.
Qed.

Lemma enumerable_own_KString (o : object) (ks : list string) :
  enumerable_own id o (KString <$> ks)
  = prod_map KString id <$> enumerable_own KString o ks.
Proof.
  unfold enumerable_own. induction ks as [|k ks IH]; [done|].
  simpl in *. destruct (enumerable_value o (KString k)); simpl;
    [f_equal; exact IH|exact IH].
Qed.

Lemma CopyDataProperties_props_of (h : heap) (l : loc) p (es : list (string * value)) :
  obj_at h l = Object p OrdinaryKind (props_of es) →
  NoDup es.*1 → StronglySorted before es.*1 →
  CopyDataProperties h (VObject l) = prod_map KString id <$> es.
Proof.
  intros Hobj Hnd Hordered. unfold CopyDataProperties, OwnPropertyKeys.
  rewrite Hobj. cbn [o_props]. rewrite props_of_symbol_keys, app_nil_r.
  rewrite enumerable_own_KString.
  change (enumerable_own KString ?o (OwnStringKeys ?o)) with (EnumerableOwnProperties o).
  by rewrite enumerate_props_of.
Qed.

Lemma define_fresh (k : key) (v : value) ps :
  k ∉ ps.*1 → define k v ps = ps ++ [(k, Property v true)].
Proof.
  induction ps as [|[k' p] ps IH]; intros Hk; [done|]. simpl.
  rewrite decide_False.
  - rewrite IH; [done|]. intros Hin. apply Hk. by apply list_elem_of_further.
  - intros ->. apply Hk. apply list_elem_of_here.
Qed.

Lemma define_all_fresh (es : list (string * value)) :
  ∀ acc, NoDup es.*1 → (∀ s, s ∈ es.*1 → KString s ∉ acc.*1) →
    define_all (prod_map KString id <$> es) acc = acc ++ props_of es.
Proof.
  unfold define_all.
  induction es as [|[k v] es IH]; intros acc Hnd Hfresh.
  { by rewrite app_nil_r. }
  csimpl in *. apply list.NoDup_cons in Hnd as [Hk Hnd].
  rewrite define_fresh by (apply Hfresh, list_elem_of_here).
  rewrite IH; [by rewrite <- app_assoc|done|].
  intros s Hs. rewrite fmap_app. intros [Hin|Hin]%elem_of_app.
  - by apply (Hfresh s); [apply list_elem_of_further|].
  - apply list_elem_of_singleton in Hin as [= ->]. done.
Qed.

(** ** The metadata, entry by entry *)

(** [reduce] over entries that are in the order of enumeration, each key
    once, ends with an object that holds the entries as an object literal
    would. *)
Lemma reduce_spread_with_exact (todo : list (string * value)) :
  ∀ (h : heap) (la : loc) (done : list (string * value)),
    la < length h →
    obj_at h la = Object (Some Object_prototype) OrdinaryKind (props_of done) →
    NoDup (done ++ todo).*1 →
    StronglySorted before (done ++ todo).*1 →
    ∃ lf new,
      BaseError.reduce BaseError.spread_with todo (VObject la) h
        = (Ok (VObject lf), h ++ new) ∧
      la ≤ lf < length (h ++ new) ∧
      obj_at (h ++ new) lf
        = Object (Some Object_prototype) OrdinaryKind (props_of (done ++ todo)).
Proof.
  induction todo as [|[k v] todo IH]; intros h la done Hla Hobj Hnd Hordered.
  - exists la, []. rewrite !app_nil_r. by repeat split.
  - assert (NoDup done.*1 ∧ StronglySorted before done.*1 ∧ k ∉ done.*1)
      as (Hnd' & Hordered' & Hk).
    { rewrite fmap_app in Hnd, Hordered. split; [|split].
      - by apply NoDup_app in Hnd as (? & _ & _).
      - by apply StronglySorted_app_1_l in Hordered.
      - apply NoDup_app in Hnd as (_ & Hdisj & _). intros Hin.
        apply (Hdisj k Hin). apply list_elem_of_here. }
    set (o1 := Object (Some Object_prototype) OrdinaryKind (props_of (done ++ [(k, v)]))).
    assert (BaseError.spread_with (VObject la) (k, v) h
            = (Ok (VObject (length h)), h ++ [o1])) as Hstep.
    { rewrite spread_with_alloc. cbn [fst snd].
      rewrite (CopyDataProperties_props_of h la _ done Hobj Hnd' Hordered').
      rewrite (define_all_fresh done []) by (done || intros ? _ []%not_elem_of_nil).
      rewrite app_nil_l, define_fresh.
      - unfold o1. by rewrite props_of_app.
      - rewrite props_of_keys. intros (s & [= ->] & Hs)%list_elem_of_fmap. done. }
    destruct (IH (h ++ [o1]) (length h) (done ++ [(k, v)]))
      as (lf & new & Hred & Hlf & Hobj').
    + rewrite length_app. simpl. lia.
    + by rewrite obj_at_app_new.
    + by rewrite <- app_assoc.
    + by rewrite <- app_assoc.
    + exists lf, (o1 :: new).
      replace (h ++ o1 :: new) with ((h ++ [o1]) ++ new) by by rewrite <- app_assoc.
      split; [|split; [lia|]].
      * simpl. unfold bind. rewrite Hstep. exact Hred.
      * rewrite Hobj'. by rewrite <- app_assoc.
Qed.

Section Entries.

Variable ObjectToString : heap → loc → exn + string.
Variable trace : option string.
Variable depth : nat.

Local Abbreviation constructor := (BaseError.constructor ObjectToString trace).
Local Abbreviation fromCatch := (BaseError.fromCatch ObjectToString trace depth).
Local Abbreviation toString := (BaseError.toString ObjectToString).

(** [fromCatch] on an object that is not an instance and has each key
    once: the metadata is the object literal of the entries of the
    input. *)
Lemma fromCatch_object_exact (h : heap) (l : loc) :
  instanceof_BaseError h (VObject l) = false →
  unique_keys (obj_at h l) →
  ∃ m new,
    length h ≤ m < length (h ++ new) ∧
    obj_at (h ++ new) m
      = Object (Some Object_prototype) OrdinaryKind
          (props_of (EnumerableOwnProperties (obj_at h l))) ∧
    fromCatch (VObject l) h =
    match extracted_message depth l h with
    | (Ok message, _) => constructor message (VObject m) (h ++ new)
    | (Throw e, h0) => (Throw e, h0)
    | (OutOfFuel, h0) => (OutOfFuel, h0)
    end.
Proof.
  intros Hinst Hunique.
  destruct (extracted_message_steady depth l h) as [_ [serialized Hh0]].
  set (o0 := Object (Some Object_prototype) OrdinaryKind []).
  destruct (reduce_spread_with_exact (EnumerableOwnProperties (obj_at h l))
              ((h ++ serialized) ++ [o0]) (length (h ++ serialized)) [])
    as (lf & new & Hred & Hlf & Hobj').
  { rewrite !length_app. simpl. lia. }
  { by rewrite obj_at_app_new. }
  { by apply entries_keys_NoDup. }
  { apply entries_keys_ordered. }
  exists lf, (serialized ++ o0 :: new).
  split; [|split].
  - rewrite !length_app in *. simpl in *. lia.
  - replace (h ++ serialized ++ o0 :: new) with (((h ++ serialized) ++ [o0]) ++ new)
      by by rewrite <- !app_assoc.
    exact Hobj'.
  - by apply fromCatch_unfold.
Qed.

Lemma fromCatch_Ok_exact (h : heap) (l : loc) (r : value) (h' : heap) :
  instanceof_BaseError h (VObject l) = false →
  unique_keys (obj_at h l) →
  fromCatch (VObject l) h = (Ok r, h') →
  ∃ m new msg,
    length h ≤ m < length (h ++ new) ∧
    obj_at (h ++ new) m
      = Object (Some Object_prototype) OrdinaryKind
          (props_of (EnumerableOwnProperties (obj_at h l))) ∧
    r = VObject (length (h ++ new)) ∧
    h' = (h ++ new) ++ [instance trace msg (VObject m)].
Proof.
  intros Hinst Hunique Hcall.
  destruct (fromCatch_object_exact h l Hinst Hunique)
    as (m & new & Hm & Hobj & Heq).
  rewrite Heq in Hcall.
  destruct (extracted_message depth l h) as [[mv|e|] h0]; [|discriminate|discriminate].
  rewrite constructor_with_metadata in Hcall.
  exists m, new.
  destruct mv as [| |b| | | | |l'].
  1: { injection Hcall as <- <-. by exists None. }
  all: match type of Hcall with
       | context [ToString ObjectToString ?hh ?mv] =>
           destruct (ToString ObjectToString hh mv) as [str| |];
             [|discriminate|discriminate]
       end;
       injection Hcall as <- <-; by exists (Some str).
Qed.

(** The metadata of a normalized object is the object literal of the
    entries of the input: [Object.entries] gives on it what it gives on the
    input, in the same order. *)
Theorem fromCatch_metadata_entries (h : heap) (l : loc) (r : value) (h' : heap) :
  instanceof_BaseError h (VObject l) = false →
  unique_keys (obj_at h l) →
  fromCatch (VObject l) h = (Ok r, h') →
  ∃ m, GetV h' r "metadata" = VObject m ∧
    o_props (obj_at h' m) = props_of (EnumerableOwnProperties (obj_at h l)) ∧
    Object_entries h' (VObject m) = Object_entries h (VObject l).
Proof.
  intros Hinst Hunique Hcall.
  destruct (fromCatch_Ok_exact h l r h' Hinst Hunique Hcall)
    as (m & new & msg & Hm & Hobj & -> & ->).
  exists m.
  assert (obj_at ((h ++ new) ++ [instance trace msg (VObject m)]) m
          = Object (Some Object_prototype) OrdinaryKind
              (props_of (EnumerableOwnProperties (obj_at h l)))) as Hobj'.
  { by rewrite obj_at_app_l by lia. }
  split; [|split; [by rewrite Hobj'|]].
  - cbn [GetV]. by rewrite (Get_new_instance _ _ _ _ (instance_metadata _ _ _)).
  - simpl. rewrite Hobj'. f_equal.
    apply enumerate_props_of; [by apply entries_keys_NoDup|apply entries_keys_ordered].
Qed.

(** The text of a normalized object: the name of the class, the message of
    the result, and the entries of the input as the input lists them.
    [toString] converts the value of each entry, then the message; it
    returns the line of text when every conversion returns, and throws
    what the first conversion that throws does. *)
Theorem toString_after_fromCatch (h : heap) (l : loc) (r : value) (h' : heap) :
  instanceof_BaseError h (VObject l) = false →
  unique_keys (obj_at h l) →
  fromCatch (VObject l) h = (Ok r, h') →
  match mapM (λ kv, v ← ToString ObjectToString h' (snd kv);
                    Ok (fst kv +:+ ":" +:+ v))
             (EnumerableOwnProperties (obj_at h l)) with
  | Ok parts =>
      match ToString ObjectToString h' (GetV h' r "message") with
      | Ok message => toString h' r = Ok (rendering "BaseError" message parts)
      | Throw e => toString h' r = Throw e
      | OutOfFuel => False
      end
  | Throw e => toString h' r = Throw e
  | OutOfFuel => False
  end.
Proof.
  intros Hinst Hunique Hcall.
  destruct (fromCatch_Ok_exact h l r h' Hinst Hunique Hcall)
    as (m & new & msg & Hm & Hobj & -> & ->).
  unfold BaseError.toString. cbn [GetV].
  rewrite (Get_new_instance _ _ _ _ (instance_metadata _ _ _)),
          (Get_new_instance _ _ _ _ (instance_name _ _ _)).
  simpl Object_entries. rewrite obj_at_app_l, Hobj by lia.
  rewrite enumerate_props_of
    by (by apply entries_keys_NoDup || apply entries_keys_ordered).
  unfold Array_from. cbn [mbind result_bind].
  match goal with
  | |- context [mapM ?f ?xs] =>
      pose proof (mapM_no_fuel f xs) as Hends; destruct (mapM f xs) as [parts|e|]
  end; [|done|].
  - cbn [ToString p_value].
    match goal with
    | |- context [ToString ObjectToString ?hh ?mv] =>
        pose proof (ToString_terminates ObjectToString hh mv);
        destruct (ToString ObjectToString hh mv)
    end; done.
  - apply Hends; [|done]. intros kv _.
    pose proof (ToString_terminates ObjectToString
                  ((h ++ new) ++ [instance trace msg (VObject m)]) (snd kv)).
    destruct (ToString ObjectToString _ (snd kv)); simpl; congruence.
Qed.

(** [toString] renders the metadata in insertion order whenever its keys
    were inserted in the order of enumeration: the array indices first, in
    ascending order. *)
Theorem toString_ordered_metadata (h : heap) (this : value) (m : loc) :
  GetV h this "metadata" = VObject m →
  o_kind (obj_at h m) = OrdinaryKind →
  unique_keys (obj_at h m) →
  StronglySorted before (string_keys (o_props (obj_at h m))) →
  toString h this = toText ObjectToString h this.
Proof.
  intros Hmd Hkind Hunique Hordered.
  unfold BaseError.toString, toText. rewrite Hmd. simpl.
  by rewrite EnumerableOwnProperties_ordered.
Qed.

End Entries.

(** ** The structured output of a normalized object *)

Lemma harvested_enumerable (o : object) (q : key) :
  (λ v, Property v true) <$>
    match harvested o q with
    | Some p => if p_enumerable p then Some (p_value p) else None
    | None => None
    end
  = harvested o q.
Proof. unfold harvested. destruct q; [|done]. by destruct (enumerable_value o _). Qed.

Section Structured.

Variable ObjectToString : heap → loc → exn + string.
Variable trace : option string.
Variable depth : nat.

Local Abbreviation fromCatch := (BaseError.fromCatch ObjectToString trace depth).

(** On the prototypes of the realm, the structured output of a normalized
    object has the name of the class and the sentinel for cause, whatever
    [name] and [cause] the input holds; under every key but the four fixed
    ones it has the own enumerable property of the input. *)
Theorem toJSON_after_fromCatch (rest : heap) (l : loc) (r : value) (h' : heap) :
  instanceof_BaseError (initial_heap ++ rest) (VObject l) = false →
  fromCatch (VObject l) (initial_heap ++ rest) = (Ok r, h') →
  ∃ props,
    BaseError.toJSON r h' =
      (Ok (VObject (length h')),
       h' ++ [Object (Some Object_prototype) OrdinaryKind props]) ∧
    assoc (KString "name") props = Some (Property (VString "BaseError") true) ∧
    assoc (KString "message") props = Some (Property (GetV h' r "message") true) ∧
    assoc (KString "cause") props = Some (Property (VString "Unknown Cause") true) ∧
    ∀ q, q ≠ KString "name" → q ≠ KString "message" →
         q ≠ KString "stack" → q ≠ KString "cause" →
         assoc q props = harvested (obj_at (initial_heap ++ rest) l) q.
Proof.
  intros Hinst Hcall.
  destruct (fromCatch_Ok_inv ObjectToString trace depth _ _ r h' Hinst Hcall)
    as (l' & m & new & ps & mv & msg & [= <-] & _ & _ & Hm & Hobj & Hps & -> & ->).
  eexists. split; [reflexivity|].
  assert (GetV (((initial_heap ++ rest) ++ new) ++ [instance trace msg (VObject m)])
            (VObject (length ((initial_heap ++ rest) ++ new))) "cause" = VUndefined)
    as Hcause.
  { cbn [GetV]. rewrite <- (app_assoc initial_heap rest new). apply Get_cause_new. }
  assert (GetV (((initial_heap ++ rest) ++ new) ++ [instance trace msg (VObject m)])
            (VObject (length ((initial_heap ++ rest) ++ new))) "name"
          = VString "BaseError") as Hname.
  { cbn [GetV]. by rewrite (Get_new_instance _ _ _ _ (instance_name _ _ _)). }
  assert (GetV (((initial_heap ++ rest) ++ new) ++ [instance trace msg (VObject m)])
            (VObject (length ((initial_heap ++ rest) ++ new))) "metadata"
          = VObject m) as Hmd.
  { cbn [GetV]. by rewrite (Get_new_instance _ _ _ _ (instance_metadata _ _ _)). }
  rewrite Hcause, Hname, Hmd. cbn [nullish].
  split; [by rewrite !assoc_define|]. split; [by rewrite !assoc_define|].
  split; [by rewrite !assoc_define|].
  intros q Hq1 Hq2 Hq3 Hq4. rewrite !assoc_define, assoc_spread.
  rewrite !decide_False by done.
  rewrite obj_at_app_l by lia.
  unfold enumerable_value, GetOwnProperty. rewrite Hobj. cbn [o_kind o_props].
  rewrite Hps. apply harvested_enumerable.
Qed.

End Structured.

(** ** The further properties on inputs of the tests and of the README *)

(** [fromCatch({ message: 'Custom error', code: 'ERR_123' })] is not the
    argument. *)
Lemma fromCatch_result_is_new_witness :
  instanceof_BaseError Tests.custom_error (VObject 4) = false ∧
  Tests.fromCatch (VObject 4) Tests.custom_error = (Ok (VObject 8), Tests.custom_result) ∧
  ∃ n, VObject 8 = VObject n ∧
    length Tests.custom_error ≤ n < length Tests.custom_result ∧
    Tests.custom_error !! n = None.
Proof.
  split; [reflexivity|]. split; [reflexivity|].
  apply (fromCatch_result_is_new Tests.host Tests.trace Tests.depth Tests.custom_error
           (VObject 4));
    reflexivity.
Defined.

(** [fromCatch(new BaseError('Original error', { code: 'ERR_001' }))] *)
Lemma fromCatch_after_constructor_witness :
  Tests.new (VString "Original error") (VObject 4)
    (initial_heap ++ [Tests.plain [("code", VString "ERR_001")]])
  = (Ok (VObject 5), Tests.original) ∧
  Tests.fromCatch (VObject 5) Tests.original = (Ok (VObject 5), Tests.original).
Proof.
  split; [reflexivity|].
  apply (fromCatch_after_constructor Tests.host Tests.trace Tests.depth
           (initial_heap ++ [Tests.plain [("code", VString "ERR_001")]])
           (VString "Original error") (VObject 4)).
  reflexivity.
Defined.

(** The README's [fromCatch] on an AuthorizationError: the error comes back
    and keeps the name of its class. *)
Lemma fromCatch_subclass_instance_witness :
  o_proto (obj_at Tests.authorization_error 6) = Some 4 ∧
  o_proto (obj_at Tests.authorization_error 4) = Some BaseError_prototype ∧
  (2 ≤ length Tests.authorization_error)%nat ∧
  Tests.fromCatch (VObject 6) Tests.authorization_error
  = (Ok (VObject 6), Tests.authorization_error) ∧
  BaseError.toString Tests.host Tests.authorization_error (VObject 6)
  = Ok "AuthorizationError (message: User not authorized )".
Proof.
  split; [reflexivity|]. split; [reflexivity|]. split; [vm_compute; lia|].
  split; [|reflexivity].
  apply (fromCatch_subclass_instance Tests.host Tests.trace Tests.depth
           Tests.authorization_error 6 4);
    [reflexivity|reflexivity|vm_compute; lia].
Defined.


(** [new BaseError('Test error', { tag: Symbol() }).toString()] throws. *)
Lemma toString_symbol_entry_throws_witness :
  GetV Tests.symbol_entry (VObject 5) "metadata" = VObject 4 ∧
  ("tag", VSymbol 0) ∈ EnumerableOwnProperties (obj_at Tests.symbol_entry 4) ∧
  ∃ e, BaseError.toString Tests.host Tests.symbol_entry (VObject 5) = Throw e.
Proof.
  assert (("tag", VSymbol 0) ∈ EnumerableOwnProperties (obj_at Tests.symbol_entry 4))
    as Hin by apply list_elem_of_here.
  split; [reflexivity|]. split; [exact Hin|].
  apply (toString_symbol_entry_throws Tests.host Tests.symbol_entry (VObject 5) 4 "tag" 0);
    [reflexivity|exact Hin].
Defined.

(** [fromCatch({ b: 1, message: 'm', 0: 2 })]: the metadata lists [0] first,
    as the input does. *)
Lemma fromCatch_metadata_entries_witness :
  instanceof_BaseError Tests.mixed_keys (VObject 4) = false ∧
  unique_keys (obj_at Tests.mixed_keys 4) ∧
  Tests.fromCatch (VObject 4) Tests.mixed_keys = (Ok (VObject 9), Tests.mixed_result) ∧
  ∃ m, GetV Tests.mixed_result (VObject 9) "metadata" = VObject m ∧
    o_props (obj_at Tests.mixed_result m)
      = props_of [("0", VNumber 2); ("b", VNumber 1); ("message", VString "m")] ∧
    Object_entries Tests.mixed_result (VObject m)
      = Ok [("0", VNumber 2); ("b", VNumber 1); ("message", VString "m")].
Proof.
  assert (unique_keys (obj_at Tests.mixed_keys 4)) as Hunique.
  { apply (bool_decide_unpack _). vm_compute. exact I. }
  split; [reflexivity|]. split; [exact Hunique|]. split; [reflexivity|].
  destruct (fromCatch_metadata_entries Tests.host Tests.trace Tests.depth Tests.mixed_keys 4
              (VObject 9) Tests.mixed_result eq_refl Hunique eq_refl)
    as (m & Hm & Hprops & Hentries).
  exists m. split; [exact Hm|]. split; [exact Hprops|exact Hentries].
Defined.

(** The text of [fromCatch({ b: 1, message: 'm', 0: 2 })]; and
    [fromCatch({ message: 'm', tag: Symbol() })] returns an error that has
    no text. *)
Lemma toString_after_fromCatch_witness :
  (instanceof_BaseError Tests.mixed_keys (VObject 4) = false ∧
   unique_keys (obj_at Tests.mixed_keys 4) ∧
   Tests.fromCatch (VObject 4) Tests.mixed_keys = (Ok (VObject 9), Tests.mixed_result) ∧
   BaseError.toString Tests.host Tests.mixed_result (VObject 9)
   = Ok "BaseError (message: m 0:2 b:1 message:m)") ∧
  (instanceof_BaseError Tests.symbol_tag (VObject 4) = false ∧
   unique_keys (obj_at Tests.symbol_tag 4) ∧
   Tests.fromCatch (VObject 4) Tests.symbol_tag = (Ok (VObject 8), Tests.symbol_tag_result) ∧
   BaseError.toString Tests.host Tests.symbol_tag_result (VObject 8)
   = Throw (TypeError SymbolToString)).
Proof.
  assert (unique_keys (obj_at Tests.mixed_keys 4)) as Hunique.
  { apply (bool_decide_unpack _). vm_compute. exact I. }
  assert (unique_keys (obj_at Tests.symbol_tag 4)) as Hunique'.
  { apply (bool_decide_unpack _). vm_compute. exact I. }
  split.
  - split; [reflexivity|]. split; [exact Hunique|]. split; [reflexivity|].
    exact (toString_after_fromCatch Tests.host Tests.trace Tests.depth Tests.mixed_keys 4
             (VObject 9) Tests.mixed_result eq_refl Hunique eq_refl).
  - split; [reflexivity|]. split; [exact Hunique'|]. split; [reflexivity|].
    exact (toString_after_fromCatch Tests.host Tests.trace Tests.depth Tests.symbol_tag 4
             (VObject 8) Tests.symbol_tag_result eq_refl Hunique' eq_refl).
Defined.

(** [new BaseError('Test error', { 0: 'a', b: 1 }).toString()]: the index
    was inserted first. *)
Lemma toString_ordered_metadata_witness :
  GetV Tests.ordered (VObject 5) "metadata" = VObject 4 ∧
  o_kind (obj_at Tests.ordered 4) = OrdinaryKind ∧
  unique_keys (obj_at Tests.ordered 4) ∧
  StronglySorted before (string_keys (o_props (obj_at Tests.ordered 4))) ∧
  BaseError.toString Tests.host Tests.ordered (VObject 5)
  = Ok "BaseError (message: Test error 0:a b:1)".
Proof.
  assert (unique_keys (obj_at Tests.ordered 4)) as Hunique.
  { apply (bool_decide_unpack _). vm_compute. exact I. }
  assert (StronglySorted before (string_keys (o_props (obj_at Tests.ordered 4))))
    as Hordered.
  { apply (bool_decide_unpack _). vm_compute. exact I. }
  split; [reflexivity|]. split; [reflexivity|]. split; [exact Hunique|].
  split; [exact Hordered|].
  etrans; [apply (toString_ordered_metadata Tests.host Tests.ordered (VObject 5) 4);
           [reflexivity|reflexivity|exact Hunique|exact Hordered]|].
  reflexivity.
Defined.

(** The structured output of [fromCatch] on an object that has a [name]
    and a [cause] of its own: neither reaches the output, [code] does. *)
Lemma toJSON_after_fromCatch_witness :
  instanceof_BaseError Tests.caused_error (VObject 4) = false ∧
  Tests.fromCatch (VObject 4) Tests.caused_error = (Ok (VObject 10), Tests.caused_result) ∧
  ∃ props,
    BaseError.toJSON (VObject 10) Tests.caused_result =
      (Ok (VObject 11),
       Tests.caused_result ++ [Object (Some Object_prototype) OrdinaryKind props]) ∧
    assoc (KString "name") props = Some (Property (VString "BaseError") true) ∧
    assoc (KString "message") props = Some (Property (VString "Request failed") true) ∧
    assoc (KString "cause") props = Some (Property (VString "Unknown Cause") true) ∧
    assoc (KString "code") props = Some (Property (VString "ECONNRESET") true).
Proof.
  split; [reflexivity|]. split; [reflexivity|].
  destruct (toJSON_after_fromCatch Tests.host Tests.trace Tests.depth
              [Tests.plain [("message", VString "Request failed");
                            ("name", VString "FetchError");
                            ("cause", VString "socket hang up");
                            ("code", VString "ECONNRESET")]]
              4 (VObject 10) Tests.caused_result eq_refl eq_refl)
    as (props & Hcall & Hname & Hmessage & Hcause & Hq).
  exists props. split; [exact Hcall|]. split; [exact Hname|].
  split; [exact Hmessage|]. split; [exact Hcause|].
  rewrite Hq by done. reflexivity.
Defined.

(** ** Serializing an object that holds an error *)

(** [fromCatch({ err: new BaseError('inner') })]: the error is serialized
    through its [toJSON]. *)
Example fromCatch_nested_error :
  Tests.fromCatch (VObject 6) Tests.nested_error = (Ok (VObject 10), Tests.nested_result) ∧
  GetV Tests.nested_result (VObject 10) "message"
  = VString ("{" +:+ QuoteJSONString "err" +:+ ":{"
       +:+ QuoteJSONString "name" +:+ ":" +:+ QuoteJSONString "BaseError" +:+ ","
       +:+ QuoteJSONString "message" +:+ ":" +:+ QuoteJSONString "inner" +:+ ","
       +:+ QuoteJSONString "stack" +:+ ":" +:+ QuoteJSONString "Error: at <anonymous>" +:+ ","
       +:+ QuoteJSONString "cause" +:+ ":" +:+ QuoteJSONString "Unknown Cause" +:+ "}}").
Proof. split; reflexivity. Qed.

(** [const e = new BaseError('x'); const o = { err: e }; e.back = o;
    fromCatch(o)]: the output of [e.toJSON()] has no [back], the
    serialization meets no object again and the call returns. *)
Example fromCatch_nested_back :
  GetV Tests.nested_back (VObject 5) "back" = VObject 6 ∧
  GetV Tests.nested_back (VObject 6) "err" = VObject 5 ∧
  Tests.fromCatch (VObject 6) Tests.nested_back = (Ok (VObject 10), Tests.nested_back_result) ∧
  GetV Tests.nested_back_result (VObject 10) "message"
  = VString ("{" +:+ QuoteJSONString "err" +:+ ":{"
       +:+ QuoteJSONString "name" +:+ ":" +:+ QuoteJSONString "BaseError" +:+ ","
       +:+ QuoteJSONString "message" +:+ ":" +:+ QuoteJSONString "x" +:+ ","
       +:+ QuoteJSONString "stack" +:+ ":" +:+ QuoteJSONString "Error: at <anonymous>" +:+ ","
       +:+ QuoteJSONString "cause" +:+ ":" +:+ QuoteJSONString "Unknown Cause" +:+ "}}").
Proof. repeat split; reflexivity. Qed.

(** [const a = []; a.self = a; fromCatch(a)]: the serialization of an
    array reads its elements only; the call returns, with the text of the
    empty array for message and [self] in the metadata. *)
Example fromCatch_array_self :
  Tests.fromCatch (VObject 4) Tests.array_self = (Ok (VObject 7), Tests.array_self_result) ∧
  GetV Tests.array_self_result (VObject 7) "message" = VString "[]" ∧
  GetV Tests.array_self_result (GetV Tests.array_self_result (VObject 7) "metadata") "self"
  = VObject 4.
Proof. repeat split; reflexivity. Qed.

(** The error of
    [const e = new BaseError('x'); e.metadata.self = e; const o = { err: e }]
    finds the method [toJSON], whatever was allocated since. *)
Lemma nested_self_method (new : heap) :
  toJSON_method (Tests.nested_self ++ new) 5 = true.
Proof. reflexivity. Qed.

Lemma nested_self_toJSON (new : heap) :
  BaseError.toJSON (VObject 5) (Tests.nested_self ++ new)
  = (Ok (VObject (length (Tests.nested_self ++ new))),
     (Tests.nested_self ++ new) ++
     [Tests.plain [("self", VObject 5); ("name", VString "BaseError");
                   ("message", VString "x"); ("stack", VString "Error: at <anonymous>");
                   ("cause", VString "Unknown Cause")]]).
Proof. reflexivity. Qed.

(** Its output holds the error again, under [self]: the serialization of
    the error does not end before the engine gives up. *)
Lemma nested_self_unbounded (depth : nat) :
  ∀ (stack : list loc) (new : heap),
    (∀ l, l ∈ stack → l < length (Tests.nested_self ++ new)) →
    fst (SerializeJSONProperty BaseError.toJSON depth stack (VObject 5)
           (Tests.nested_self ++ new)) = Throw RangeError.
Proof.
  induction depth as [|depth IH]; intros stack new Hstack; [done|].
  cbn [SerializeJSONProperty]. unfold bind at 1.
  rewrite nested_self_method, nested_self_toJSON. cbv beta iota.
  rewrite decide_False by (intros Hin; apply Hstack in Hin; lia).
  set (output := Tests.plain _).
  assert (∃ rest, JSON_children ((Tests.nested_self ++ new) ++ [output])
                    (length (Tests.nested_self ++ new))
                  = (Some "self", VObject 5) :: rest) as [rest ->].
  { unfold JSON_children. rewrite obj_at_app_new. by eexists. }
  unfold bind at 1. cbn [for_each]. unfold bind at 1. unfold bind at 1. cbn [snd].
  specialize (IH (length (Tests.nested_self ++ new) :: stack) (new ++ [output])).
  rewrite app_assoc in IH.
  destruct (SerializeJSONProperty _ depth _ (VObject 5) _) as [r h1].
  cbn [fst] in IH. rewrite IH; [done|].
  intros l Hl. rewrite (length_app _ [output]). cbn [length].
  apply elem_of_cons in Hl as [->|Hl]; [lia|]. apply Hstack in Hl. lia.
Qed.

Section Unbounded.

Variable ObjectToString : heap → loc → exn + string.
Variable trace : option string.
Variable depth : nat.

(** On [const e = new BaseError('x'); e.metadata.self = e; const o = { err: e }],
    [fromCatch(o)] throws the RangeError of the engine, however deep the
    engine lets the serialization nest: each output of [toJSON] holds the
    error, which is serialized through [toJSON] again. *)
Theorem fromCatch_unbounded_serialization :
  fst (BaseError.fromCatch ObjectToString trace depth (VObject 6) Tests.nested_self)
  = Throw RangeError.
Proof.
  destruct (fromCatch_object ObjectToString trace depth Tests.nested_self 6 eq_refl)
    as (m & new & ps & _ & _ & _ & ->).
  unfold extracted_message.
  change (HasProperty Tests.nested_self 6 (KString "message")) with false. cbv iota.
  assert (fst (JSON_stringify BaseError.toJSON depth (VObject 6) Tests.nested_self)
          = Throw RangeError) as Hjson.
  { unfold JSON_stringify, bind. destruct depth as [|depth']; [done|].
    cbn [SerializeJSONProperty]. unfold bind at 1.
    change (toJSON_method Tests.nested_self 6) with false. cbv beta iota.
    rewrite decide_False by apply not_elem_of_nil.
    change (JSON_children Tests.nested_self 6) with [(Some "err", VObject 5)].
    unfold bind at 1. cbn [for_each]. unfold bind at 1. unfold bind at 1. cbn [snd].
    pose proof (nested_self_unbounded depth' [6] []) as Hser.
    rewrite app_nil_r in Hser.
    destruct (SerializeJSONProperty _ depth' _ (VObject 5) _) as [r h1].
    cbn [fst] in Hser. rewrite Hser; [done|].
    intros l ->%list_elem_of_singleton. vm_compute. lia. }
  destruct (JSON_stringify BaseError.toJSON depth (VObject 6) Tests.nested_self)
    as [r h0].
  cbn [fst] in Hjson. by rewrite Hjson.
Qed.

End Unbounded.
